(** * api-testing-tool-backend: the in-memory store and the HTTP relay

    A shallow embedding of [server.js] (both the full server and its
    simplified deployment variant) and the properties of its in-memory
    storage branch and of the [/api/proxy] relay.

    Conventions of the embedding.
    - A JavaScript string is a sequence of UTF-16 code units; the model
      carries the code units below 256, the range of [ascii].
    - A JSON number is carried as an integer [Z]; the handlers observe a
      number only through its truthiness and its decimal rendering, which
      is the one of JavaScript for the integers a number holds exactly
      (magnitude at most 2^53; see [safe_numbers]).
    - [Date.now()], [new Date().toISOString()], [new URL(..)] and [fetch]
      are readings of the environment: the clock readings are arguments of
      each handler, the URL parser and the network are fields of
      [Platform]. *)

From Stdlib Require Import List String Ascii ZArith Lia Bool Arith.
From Stdlib Require Import DecimalString DecimalPos.
Import ListNotations.
Set Warnings "-register-all".
Local Open Scope list_scope.
Local Open Scope string_scope.

(** ** JavaScript values and the primitives the handlers use *)

Module JS.

(** What [express.json()] and destructuring hand to a handler: a JSON value,
    or [undefined] for an absent field. [VObj] lists the own properties in
    [Object.entries] order. *)
Inductive value : Type :=
| VUndefined
| VNull
| VBool (b : bool)
| VNum (n : Z)
| VStr (s : string)
| VArr (items : list value)
| VObj (props : list (string * value)).

(** ToBoolean. *)
Definition truthy (v : value) : bool :=
  match v with
  | VUndefined | VNull => false
  | VBool b => b
  | VNum n => negb (n =? 0)%Z
  | VStr s => negb (s =? EmptyString)
  | VArr _ | VObj _ => true
  end.

(** [a || b]. *)
Definition or_else (a b : value) : value := if truthy a then a else b.

(** [a === b] for values that reach the handlers from different requests:
    primitives compare by content, two objects or arrays are never the same
    reference. *)
Definition strict_eq (a b : value) : bool :=
  match a, b with
  | VUndefined, VUndefined => true
  | VNull, VNull => true
  | VBool x, VBool y => Bool.eqb x y
  | VNum x, VNum y => (x =? y)%Z
  | VStr x, VStr y => (x =? y)
  | _, _ => false
  end.

(** [n.toString()] for an integer that a number holds exactly: plain
    decimal (JavaScript turns to exponent notation from 10^21 on). *)
Definition Number_toString (n : Z) : string :=
  NilZero.string_of_int (Z.to_int n).

(** [Array.prototype.join]. *)
Fixpoint join (sep : string) (parts : list string) : string :=
  match parts with
  | [] => EmptyString
  | [p] => p
  | p :: rest => p ++ sep ++ join sep rest
  end.

(** ToString, as template literals, string concatenation and
    [URLSearchParams.append] apply it. *)
Fixpoint ToString (v : value) : string :=
  match v with
  | VUndefined => "undefined"
  | VNull => "null"
  | VBool true => "true"
  | VBool false => "false"
  | VNum n => Number_toString n
  | VStr s => s
  | VArr items =>
      join ","
        (map (fun x => match x with
                       | VUndefined | VNull => EmptyString
                       | _ => ToString x
                       end) items)
  | VObj _ => "[object Object]"
  end.

(** Own enumerable string-keyed properties, as [Object.entries], [Object.keys]
    and object spread enumerate them: the properties of an object, the
    indexed elements of an array, the indexed characters of a string, nothing
    for the other primitives. *)
Definition index_key (i : nat) : string := Number_toString (Z.of_nat i).

Fixpoint indexed {A : Type} (i : nat) (l : list A) : list (string * A) :=
  match l with
  | [] => []
  | x :: rest => (index_key i, x) :: indexed (S i) rest
  end.

Definition chars (s : string) : list value :=
  map (fun c => VStr (String c EmptyString)) (list_ascii_of_string s).

Definition own_entries (v : value) : list (string * value) :=
  match v with
  | VObj props => props
  | VArr items => indexed 0 items
  | VStr s => indexed 0 (chars s)
  | _ => []
  end.

(** Property assignment [o[k] = v] on an object kept as its entries: an
    existing key keeps its place, a new key goes last. *)
Fixpoint obj_set (k : string) (v : value) (o : list (string * value))
  : list (string * value) :=
  match o with
  | [] => [(k, v)]
  | (k', v') :: rest =>
      if (k' =? k) then (k, v) :: rest else (k', v') :: obj_set k v rest
  end.

(** [{ ...base, ...extra }]. *)
Definition spread (base extra : list (string * value)) : list (string * value) :=
  fold_left (fun o kv => obj_set (fst kv) (snd kv) o) extra base.

(** *** Hexadecimal digits and character classes *)

Definition hex_digit (upper : bool) (d : N) : ascii :=
  if (d <? 10)%N then ascii_of_N (48 + d)
  else ascii_of_N ((if upper then 55 else 87) + d).

Definition code (c : ascii) : N := N_of_ascii c.

Definition is_digit (c : ascii) : bool := ((48 <=? code c) && (code c <=? 57))%N.
Definition is_upper (c : ascii) : bool := ((65 <=? code c) && (code c <=? 90))%N.
Definition is_lower (c : ascii) : bool := ((97 <=? code c) && (code c <=? 122))%N.
Definition is_alnum (c : ascii) : bool := is_digit c || is_upper c || is_lower c.

(** WhiteSpace and LineTerminator code units below 256: TAB, LF, VT, FF, CR,
    SP and NBSP. *)
Definition is_space (c : ascii) : bool :=
  let n := code c in
  ((n =? 9) || (n =? 10) || (n =? 11) || (n =? 12) || (n =? 13)
   || (n =? 32) || (n =? 160))%N.

(** *** [String.prototype.trim] *)

Fixpoint trimStart (s : string) : string :=
  match s with
  | EmptyString => EmptyString
  | String c rest => if is_space c then trimStart rest else s
  end.

Fixpoint trimEnd (s : string) : string :=
  match s with
  | EmptyString => EmptyString
  | String c rest =>
      match trimStart s with
      | EmptyString => EmptyString
      | _ => String c (trimEnd rest)
      end
  end.

Definition trim (s : string) : string := trimEnd (trimStart s).

(** [s.includes(t)]. *)
Fixpoint includes (s t : string) : bool :=
  String.prefix t s
  || match s with
     | EmptyString => false
     | String _ rest => includes rest t
     end.

(** *** [JSON.stringify] *)

Definition dquote : ascii := ascii_of_N 34.
Definition backslash : ascii := ascii_of_N 92.

Definition str1 (c : ascii) : string := String c EmptyString.

(** QuoteJSONString on one code unit: the two-character escapes, [\u00xx]
    for the other control characters, the character itself otherwise. *)
Definition json_escape (c : ascii) : string :=
  let n := code c in
  if (n =? 34)%N then String backslash (str1 dquote)
  else if (n =? 92)%N then String backslash (str1 backslash)
  else if (n =? 8)%N then String backslash "b"
  else if (n =? 9)%N then String backslash "t"
  else if (n =? 10)%N then String backslash "n"
  else if (n =? 12)%N then String backslash "f"
  else if (n =? 13)%N then String backslash "r"
  else if (n <? 32)%N then
    String backslash
      ("u00" ++ String (hex_digit false (n / 16)) (str1 (hex_digit false (n mod 16))))
  else str1 c.

Fixpoint json_escape_all (s : string) : string :=
  match s with
  | EmptyString => EmptyString
  | String c rest => json_escape c ++ json_escape_all rest
  end.

Definition json_quote (s : string) : string :=
  String dquote (json_escape_all s ++ str1 dquote).

(** SerializeJSONProperty with no indentation. An [undefined] element of an
    array is written [null]; an [undefined] property of an object is left
    out. *)
Fixpoint json_text (v : value) : string :=
  match v with
  | VUndefined => "null"
  | VNull => "null"
  | VBool true => "true"
  | VBool false => "false"
  | VNum n => Number_toString n
  | VStr s => json_quote s
  | VArr items => "[" ++ join "," (map json_text items) ++ "]"
  | VObj props =>
      "{" ++ join ","
               (flat_map (fun '(k, x) =>
                            match x with
                            | VUndefined => []
                            | _ => [json_quote k ++ ":" ++ json_text x]
                            end) props)
          ++ "}"
  end.

(** [JSON.stringify(v)]: [undefined] (here [None]) for [undefined], the JSON
    text otherwise. *)
Definition JSON_stringify (v : value) : option string :=
  match v with
  | VUndefined => None
  | _ => Some (json_text v)
  end.

(** *** [URLSearchParams] *)

(** The application/x-www-form-urlencoded byte serializer: alphanumerics and
    [*-._] stay, a space becomes [+], every other byte becomes [%XX]. *)
Definition percent (b : N) : string :=
  String "%" (String (hex_digit true (b / 16)) (str1 (hex_digit true (b mod 16)))).

Definition urlencode_byte (b : N) : string :=
  let c := ascii_of_N b in
  if is_alnum c || (b =? 42)%N || (b =? 45)%N || (b =? 46)%N || (b =? 95)%N
  then str1 c
  else if (b =? 32)%N then "+"
  else percent b.

(** UTF-8 encoding of a code unit below 256: one byte below 128, two bytes
    from there on. *)
Definition utf8 (c : ascii) : list N :=
  let n := code c in
  if (n <? 128)%N then [n] else [(192 + n / 64)%N; (128 + n mod 64)%N].

Fixpoint urlencode (s : string) : string :=
  match s with
  | EmptyString => EmptyString
  | String c rest =>
      fold_right (fun b acc => urlencode_byte b ++ acc) (urlencode rest) (utf8 c)
  end.

(** [new URLSearchParams()] after a sequence of [append(name, value)] calls,
    as the list of its pairs, and its [toString()]. *)
Definition URLSearchParams_toString (pairs : list (string * string)) : string :=
  join "&" (map (fun kv => urlencode (fst kv) ++ "=" ++ urlencode (snd kv)) pairs).

(** *** [parseInt] and [Array.prototype.slice] *)

Definition digit_value (radix : Z) (c : ascii) : option Z :=
  let n := Z.of_N (code c) in
  let d := if is_digit c then Some (n - 48)%Z
           else if is_lower c then Some (n - 87)%Z
           else if is_upper c then Some (n - 55)%Z
           else None in
  match d with
  | Some x => if (x <? radix)%Z then Some x else None
  | None => None
  end.

(** The longest prefix of digits of the radix, read left to right; [None]
    when it is empty. *)
Fixpoint parse_digits (radix : Z) (acc : option Z) (s : string) : option Z :=
  match s with
  | EmptyString => acc
  | String c rest =>
      match digit_value radix c with
      | Some d =>
          parse_digits radix
            (Some (match acc with Some a => a * radix + d | None => d end)%Z) rest
      | None => acc
      end
  end.

Definition strip_radix_prefix (s : string) : Z * string :=
  match s with
  | String z (String x rest) =>
      if ((code z =? 48) && ((code x =? 120) || (code x =? 88)))%N
      then (16%Z, rest) else (10%Z, s)
  | _ => (10%Z, s)
  end.

(** [parseInt(s)] with no radix argument; [None] is NaN. *)
Definition parseInt (s : string) : option Z :=
  let t := trimStart s in
  let '(sign, t) :=
    match t with
    | String c rest =>
        if (code c =? 45)%N then ((-1)%Z, rest)
        else if (code c =? 43)%N then (1%Z, rest)
        else (1%Z, t)
    | EmptyString => (1%Z, t)
    end in
  let '(radix, t) := strip_radix_prefix t in
  match parse_digits radix None t with
  | Some n => Some (sign * n)%Z
  | None => None
  end.

(** [l.slice(0, stop)]: a negative [stop] counts from the end. *)
Definition slice0 {A : Type} (l : list A) (stop : Z) : list A :=
  let len := Z.of_nat (List.length l) in
  let final := if (stop <? 0)%Z then Z.max (len + stop) 0 else Z.min stop len in
  firstn (Z.to_nat final) l.

End JS.

Import JS.

(** ** The environment of a handler *)

(** The result of a call that may throw, with the message of the error. *)
Inductive Outcome (A : Type) : Type :=
| Returned (a : A)
| Thrown (message : string).
Arguments Returned {A} a.
Arguments Thrown {A} message.

Definition bind {A B : Type} (o : Outcome A) (k : A -> Outcome B) : Outcome B :=
  match o with
  | Returned a => k a
  | Thrown m => Thrown m
  end.

Notation "x <- c ;; k" := (bind c (fun x => k))
  (at level 61, c at next level, right associativity).

(** What a handler sends: [res.json(a)] with status 200, or
    [res.status(status).json({ error })]. *)
Inductive Reply (A : Type) : Type :=
| Json (a : A)
| JsonError (status : Z) (error : string).
Arguments Json {A} a.
Arguments JsonError {A} status error.

Definition http_status {A : Type} (r : Reply A) : Z :=
  match r with
  | Json _ => 200
  | JsonError status _ => status
  end.

(** A parsed URL, as far as the handlers read it. *)
Record URL : Type := { pathname : string }.

(** The options object handed to [fetch]; [fo_body] is absent unless the
    handler sets it. *)
Record FetchOptions : Type := {
  fo_method : value;
  fo_headers : list (string * value);
  fo_redirect : string;
  fo_timeout : option Z;
  fo_body : option string
}.

(** The response object of [fetch]: its status line, the entries of its
    [Headers] (names in lower case, as [forEach] yields them), and the
    outcomes of its body readers. [text_after_json] is what [text()] gives
    once [json()] has consumed the body and failed. *)
Record Response : Type := {
  res_status : Z;
  res_statusText : string;
  res_headers : list (string * string);
  json : Outcome value;
  text : Outcome string;
  text_after_json : Outcome string
}.

Class Platform : Type := {
  new_URL : string -> Outcome URL;
  fetch : string -> FetchOptions -> Outcome Response
}.

(** A query-string or route parameter: absent or a string. *)
Definition qvalue (q : option string) : value :=
  match q with
  | None => VUndefined
  | Some s => VStr s
  end.

(** ** The full server, in-memory branch ([supabase] undefined) *)

Module Memory.

Record HistoryItem : Type := {
  h_id : string;
  h_url : value;
  h_method : value;
  h_headers : value;
  h_body : value;
  h_params : value;
  h_user_id : value;
  h_created_at : string
}.

Record Collection : Type := {
  c_id : string;
  c_name : value;
  c_description : value;
  c_user_id : value;
  c_created_at : string
}.

Record CollectionRequest : Type := {
  r_id : string;
  r_collection_id : string;
  r_url : value;
  r_method : value;
  r_headers : value;
  r_body : value;
  r_params : value;
  r_name : value;
  r_created_at : string
}.

(** The three module-level arrays. *)
Record Store : Type := {
  memoryHistory : list HistoryItem;
  memoryCollections : list Collection;
  memoryCollectionRequests : list CollectionRequest
}.

Definition empty : Store :=
  {| memoryHistory := []; memoryCollections := []; memoryCollectionRequests := [] |}.

(** The JSON body of POST /api/history and of
    POST /api/collections/:id/requests. *)
Record RequestFields : Type := {
  url : value;
  method : value;
  headers : value;
  body : value;
  params : value;
  user_id : value;
  name : value
}.

Record CollectionFields : Type := {
  cf_name : value;
  cf_description : value;
  cf_user_id : value
}.

(** POST /api/history. [now] is [Date.now()], [iso] is
    [new Date().toISOString()]. *)
Definition historyItem_of (now : Z) (iso : string) (b : RequestFields) : HistoryItem :=
  {| h_id := Number_toString now;
     h_url := url b;
     h_method := method b;
     h_headers := headers b;
     h_body := body b;
     h_params := params b;
     h_user_id := or_else (user_id b) (VStr "anonymous");
     h_created_at := iso |}.

Definition saveHistory (now : Z) (iso : string) (b : RequestFields) (st : Store)
  : Store * Reply HistoryItem :=
  let historyItem := historyItem_of now iso b in
  let unshifted := historyItem :: memoryHistory st in
  ({| memoryHistory := slice0 unshifted 100;
      memoryCollections := memoryCollections st;
      memoryCollectionRequests := memoryCollectionRequests st |},
   Json historyItem).

(** [parseInt(req.query.limit) || 50]. *)
Definition limit_of (limit : option string) : Z :=
  match parseInt (ToString (qvalue limit)) with
  | Some n => if (n =? 0)%Z then 50%Z else n
  | None => 50%Z
  end.

(** GET /api/history. *)
Definition listHistory (user_id limit : option string) (st : Store)
  : Reply (list HistoryItem) :=
  let userId := or_else (qvalue user_id) (VStr "anonymous") in
  let limit := limit_of limit in
  Json (slice0 (filter (fun item => strict_eq (h_user_id item) userId)
                       (memoryHistory st))
               limit).

(** DELETE /api/history/:id. *)
Definition deleteHistory (id : string) (user_id : option string) (st : Store)
  : Store * Reply string :=
  ({| memoryHistory :=
        filter (fun item =>
                  negb ((h_id item =? id)
                        && strict_eq (h_user_id item)
                             (or_else (qvalue user_id) (VStr "anonymous"))))
               (memoryHistory st);
      memoryCollections := memoryCollections st;
      memoryCollectionRequests := memoryCollectionRequests st |},
   Json "History item deleted").

(** [!name || !name.trim()]: [trim] exists on strings only, so a truthy
    name of another type throws. *)
Definition name_missing (name : value) : Outcome bool :=
  if negb (truthy name) then Returned true
  else match name with
       | VStr s => Returned (negb (truthy (VStr (trim s))))
       | _ => Thrown "name.trim is not a function"
       end.

(** POST /api/collections. *)
Definition createCollection (now : Z) (iso : string) (b : CollectionFields)
  (st : Store) : Store * Reply Collection :=
  match name_missing (cf_name b) with
  | Thrown m => (st, JsonError 500 m)
  | Returned true => (st, JsonError 400 "Collection name is required")
  | Returned false =>
      let collection :=
        {| c_id := Number_toString now;
           c_name := cf_name b;
           c_description := cf_description b;
           c_user_id := or_else (cf_user_id b) (VStr "anonymous");
           c_created_at := iso |} in
      ({| memoryHistory := memoryHistory st;
          memoryCollections := collection :: memoryCollections st;
          memoryCollectionRequests := memoryCollectionRequests st |},
       Json collection)
  end.

(** GET /api/collections. *)
Definition listCollections (user_id : option string) (st : Store)
  : Reply (list Collection) :=
  let userId := or_else (qvalue user_id) (VStr "anonymous") in
  Json (filter (fun item => strict_eq (c_user_id item) userId) (memoryCollections st)).

(** DELETE /api/collections/:id. *)
Definition deleteCollection (id : string) (user_id : option string) (st : Store)
  : Store * Reply string :=
  ({| memoryHistory := memoryHistory st;
      memoryCollections :=
        filter (fun item =>
                  negb ((c_id item =? id)
                        && strict_eq (c_user_id item)
                             (or_else (qvalue user_id) (VStr "anonymous"))))
               (memoryCollections st);
      memoryCollectionRequests :=
        filter (fun req => negb (r_collection_id req =? id))
               (memoryCollectionRequests st) |},
   Json "Collection deleted").

(** [name || `${method} ${new URL(url).pathname}`]: the URL is parsed only
    when the name is falsy. *)
Definition request_name `{Platform} (b : RequestFields) : Outcome value :=
  if truthy (name b) then Returned (name b)
  else
    u <- new_URL (ToString (url b)) ;;
    Returned (VStr (ToString (method b) ++ " " ++ pathname u)).

(** POST /api/collections/:id/requests. *)
Definition addCollectionRequest `{Platform} (now : Z) (iso : string) (id : string)
  (b : RequestFields) (st : Store) : Store * Reply CollectionRequest :=
  match request_name b with
  | Thrown m => (st, JsonError 500 m)
  | Returned nm =>
      let request :=
        {| r_id := Number_toString now;
           r_collection_id := id;
           r_url := url b;
           r_method := method b;
           r_headers := headers b;
           r_body := body b;
           r_params := params b;
           r_name := nm;
           r_created_at := iso |} in
      ({| memoryHistory := memoryHistory st;
          memoryCollections := memoryCollections st;
          memoryCollectionRequests := request :: memoryCollectionRequests st |},
       Json request)
  end.

(** GET /api/collections/:id/requests. *)
Definition listCollectionRequests (id : string) (st : Store)
  : Reply (list CollectionRequest) :=
  Json (filter (fun item => r_collection_id item =? id) (memoryCollectionRequests st)).

(** [memoryCollections.find(c => c.id === id)]. *)
Definition find_collection (id : string) (cs : list Collection) : option Collection :=
  find (fun c => c_id c =? id) cs.

Record ClearReply : Type := {
  cl_message : string;
  cl_historyCount : nat;
  cl_collectionsCount : nat
}.

(** DELETE /api/clear. The three assignments run in this order, so the
    third one reads the [memoryCollections] the second one has written. *)
Definition clear (user_id : option string) (st : Store) : Store * Reply ClearReply :=
  let st' :=
    if truthy (qvalue user_id) then
      let uid := qvalue user_id in
      let history :=
        filter (fun item => negb (strict_eq (h_user_id item) uid)) (memoryHistory st) in
      let collections :=
        filter (fun item => negb (strict_eq (c_user_id item) uid)) (memoryCollections st) in
      let requests :=
        filter (fun item =>
                  match find_collection (r_collection_id item) collections with
                  | None => true
                  | Some collection => negb (strict_eq (c_user_id collection) uid)
                  end)
               (memoryCollectionRequests st) in
      {| memoryHistory := history;
         memoryCollections := collections;
         memoryCollectionRequests := requests |}
    else empty in
  (st',
   Json {| cl_message := if truthy (qvalue user_id) then "User data cleared"
                         else "All data cleared";
           cl_historyCount := List.length (memoryHistory st');
           cl_collectionsCount := List.length (memoryCollections st') |}).

Record Stats : Type := {
  historyCount : nat;
  collectionsCount : nat;
  requestsCount : nat;
  storageType : string
}.

(** GET /api/stats. *)
Definition stats (user_id : option string) (st : Store) : Reply Stats :=
  if truthy (qvalue user_id) then
    Json {| historyCount :=
              List.length (filter (fun h => strict_eq (h_user_id h) (qvalue user_id))
                                  (memoryHistory st));
            collectionsCount :=
              List.length (filter (fun c => strict_eq (c_user_id c) (qvalue user_id))
                                  (memoryCollections st));
            requestsCount := List.length (memoryCollectionRequests st);
            storageType := "memory" |}
  else
    Json {| historyCount := List.length (memoryHistory st);
            collectionsCount := List.length (memoryCollections st);
            requestsCount := List.length (memoryCollectionRequests st);
            storageType := "memory" |}.

End Memory.

(** ** The relay: POST /api/proxy *)

Module Relay.

(** The JSON body of POST /api/proxy. *)
Record ProxyBody : Type := {
  url : value;
  method : value;
  headers : value;
  body : value;
  params : value
}.

(** [responseData]. *)
Record RelayResult : Type := {
  rr_status : Z;
  rr_statusText : string;
  rr_headers : list (string * string);
  rr_body : value;
  rr_time : Z;
  rr_size : Z
}.

(** The object the catch branch sends. *)
Record Failure : Type := {
  f_error : string;
  f_time : Z;
  f_size : Z;
  f_status : Z
}.

Inductive ProxyReply : Type :=
| Relayed (r : RelayResult)              (* res.json(responseData) *)
| Rejected (code : Z) (error : string)   (* res.status(code).json({ error }) *)
| Failed (code : Z) (f : Failure).       (* res.status(code).json({ error, time, size, status }) *)

(** The status code of the HTTP response the caller receives. *)
Definition reply_code (r : ProxyReply) : Z :=
  match r with
  | Relayed _ => 200
  | Rejected code _ => code
  | Failed code _ => code
  end.

(** The pairs [urlParams.append] receives: the entries whose key and value
    are both truthy, the value converted to a string. *)
Definition appended (params : value) : list (string * string) :=
  map (fun kv => (fst kv, ToString (snd kv)))
      (filter (fun kv => truthy (VStr (fst kv)) && truthy (snd kv))
              (own_entries params)).

Definition finalUrl (b : ProxyBody) : string :=
  if truthy (params b) && (0 <? List.length (own_entries (params b)))%nat
  then ToString (url b) ++ "?" ++ URLSearchParams_toString (appended (params b))
  else ToString (url b).

(** [method !== 'GET' && method !== 'HEAD' && body]. *)
Definition attaches_body (b : ProxyBody) : bool :=
  negb (strict_eq (method b) (VStr "GET"))
  && negb (strict_eq (method b) (VStr "HEAD"))
  && truthy (body b).

Definition fetchOptions (timeout : option Z) (b : ProxyBody) : FetchOptions :=
  {| fo_method := or_else (method b) (VStr "GET");
     fo_headers :=
       spread [("Content-Type", VStr "application/json")] (own_entries (headers b));
     fo_redirect := "follow";
     fo_timeout := timeout;
     fo_body := if attaches_body b then JSON_stringify (body b) else None |}.

(** [response.headers.get(name)]. *)
Fixpoint headers_get (name : string) (h : list (string * string)) : option string :=
  match h with
  | [] => None
  | (k, v) :: rest => if (k =? name) then Some v else headers_get name rest
  end.

(** The body, decoded by the declared content type. *)
Definition decode (response : Response) : Outcome value :=
  match headers_get "content-type" (res_headers response) with
  | Some contentType =>
      if truthy (VStr contentType) && includes contentType "application/json"
      then match json response with
           | Returned v => Returned v
           | Thrown _ => t <- text_after_json response ;; Returned (VStr t)
           end
      else t <- text response ;; Returned (VStr t)
  | None => t <- text response ;; Returned (VStr t)
  end.

(** [JSON.stringify(responseBody).length]; reading [length] of [undefined]
    throws. *)
Definition size_of (responseBody : value) : Outcome Z :=
  match JSON_stringify responseBody with
  | Some s => Returned (Z.of_nat (String.length s))
  | None => Thrown "Cannot read properties of undefined (reading 'length')"
  end.

(** The body of the [try] block from the [fetch] call on. [startTime] and
    [endTime] are the two [Date.now()] readings. *)
Definition relay `{Platform} (timeout : option Z) (startTime endTime : Z)
  (b : ProxyBody) : Outcome RelayResult :=
  response <- fetch (finalUrl b) (fetchOptions timeout b) ;;
  responseBody <- decode response ;;
  size <- size_of responseBody ;;
  Returned {| rr_status := res_status response;
              rr_statusText := res_statusText response;
              rr_headers := res_headers response;
              rr_body := responseBody;
              rr_time := endTime - startTime;
              rr_size := size |}.

(** The catch branch. *)
Definition failure (message : string) : ProxyReply :=
  Failed 500 {| f_error := message; f_time := 0; f_size := 0; f_status := 500 |}.

(** POST /api/proxy of the full server. *)
Definition proxy `{Platform} (startTime endTime : Z) (b : ProxyBody) : ProxyReply :=
  if negb (truthy (url b)) then Rejected 400 "URL is required"
  else
    match new_URL (ToString (url b)) with
    | Thrown _ => Rejected 400 "Invalid URL format"
    | Returned _ =>
        match relay (Some 30000%Z) startTime endTime b with
        | Returned responseData => Relayed responseData
        | Thrown message => failure message
        end
    end.

End Relay.

(** ** The simplified variant of the server *)

Module Simplified.

(** A request stored inside its collection. *)
Record Request : Type := {
  q_id : string;
  q_url : value;
  q_method : value;
  q_headers : value;
  q_body : value;
  q_params : value;
  q_name : value;
  q_created_at : string
}.

(** A collection; [c_requests] is [undefined] until a request is added. *)
Record Collection : Type := {
  c_id : string;
  c_name : value;
  c_description : value;
  c_user_id : value;
  c_created_at : string;
  c_requests : option (list Request)
}.

Record Store : Type := {
  memoryHistory : list Memory.HistoryItem;
  memoryCollections : list Collection
}.

Definition empty : Store := {| memoryHistory := []; memoryCollections := [] |}.

(** POST /api/history. *)
Definition historyItem_of (now : Z) (iso : string) (b : Memory.RequestFields)
  : Memory.HistoryItem :=
  {| Memory.h_id := Number_toString now;
     Memory.h_url := Memory.url b;
     Memory.h_method := Memory.method b;
     Memory.h_headers := or_else (Memory.headers b) (VObj []);
     Memory.h_body := or_else (Memory.body b) VNull;
     Memory.h_params := or_else (Memory.params b) (VObj []);
     Memory.h_user_id := or_else (Memory.user_id b) (VStr "anonymous");
     Memory.h_created_at := iso |}.

Definition saveHistory (now : Z) (iso : string) (b : Memory.RequestFields) (st : Store)
  : Store * Reply Memory.HistoryItem :=
  let historyItem := historyItem_of now iso b in
  let unshifted := historyItem :: memoryHistory st in
  ({| memoryHistory := slice0 unshifted 100;
      memoryCollections := memoryCollections st |},
   Json historyItem).

(** GET /api/history. *)
Definition listHistory (user_id : option string) (st : Store)
  : Reply (list Memory.HistoryItem) :=
  let userId := or_else (qvalue user_id) (VStr "anonymous") in
  Json (slice0 (filter (fun item => strict_eq (Memory.h_user_id item) userId)
                       (memoryHistory st))
               50).

(** POST /api/collections. *)
Definition createCollection (now : Z) (iso : string) (b : Memory.CollectionFields)
  (st : Store) : Store * Reply Collection :=
  match Memory.name_missing (Memory.cf_name b) with
  | Thrown m => (st, JsonError 500 m)
  | Returned true => (st, JsonError 400 "Collection name is required")
  | Returned false =>
      let collection :=
        {| c_id := Number_toString now;
           c_name := Memory.cf_name b;
           c_description := or_else (Memory.cf_description b) (VStr EmptyString);
           c_user_id := or_else (Memory.cf_user_id b) (VStr "anonymous");
           c_created_at := iso;
           c_requests := None |} in
      ({| memoryHistory := memoryHistory st;
          memoryCollections := collection :: memoryCollections st |},
       Json collection)
  end.

(** GET /api/collections. *)
Definition listCollections (user_id : option string) (st : Store)
  : Reply (list Collection) :=
  let userId := or_else (qvalue user_id) (VStr "anonymous") in
  Json (filter (fun item => strict_eq (c_user_id item) userId) (memoryCollections st)).

(** [array.findIndex(p)]; [None] is -1. *)
Fixpoint findIndex {A : Type} (p : A -> bool) (l : list A) : option nat :=
  match l with
  | [] => None
  | x :: rest => if p x then Some 0 else option_map S (findIndex p rest)
  end.

(** In-place update of the element at an index. *)
Fixpoint update_at {A : Type} (i : nat) (f : A -> A) (l : list A) : list A :=
  match l, i with
  | [], _ => []
  | x :: rest, O => f x :: rest
  | x :: rest, S j => x :: update_at j f rest
  end.

(** [if (!c.requests) c.requests = []; c.requests.unshift(request)]. *)
Definition unshift_request (request : Request) (c : Collection) : Collection :=
  {| c_id := c_id c;
     c_name := c_name c;
     c_description := c_description c;
     c_user_id := c_user_id c;
     c_created_at := c_created_at c;
     c_requests :=
       Some (request :: match c_requests c with
                        | Some requests => requests
                        | None => []
                        end) |}.

(** POST /api/collections/:id/requests. *)
Definition addCollectionRequest (now : Z) (iso : string) (id : string)
  (b : Memory.RequestFields) (st : Store) : Store * Reply Request :=
  match findIndex (fun c => c_id c =? id) (memoryCollections st) with
  | None => (st, JsonError 404 "Collection not found")
  | Some collectionIndex =>
      let request :=
        {| q_id := Number_toString now;
           q_url := Memory.url b;
           q_method := Memory.method b;
           q_headers := or_else (Memory.headers b) (VObj []);
           q_body := or_else (Memory.body b) VNull;
           q_params := or_else (Memory.params b) (VObj []);
           q_name :=
             or_else (Memory.name b)
               (VStr (ToString (Memory.method b) ++ " " ++ ToString (Memory.url b)));
           q_created_at := iso |} in
      ({| memoryHistory := memoryHistory st;
          memoryCollections :=
            update_at collectionIndex (unshift_request request) (memoryCollections st) |},
       Json request)
  end.

(** The number of requests stored in all collections. *)
Definition requests_count (st : Store) : nat :=
  list_sum (map (fun c => match c_requests c with
                          | Some requests => List.length requests
                          | None => 0
                          end) (memoryCollections st)).

(** DELETE /api/clear. *)
Definition clear (st : Store) : Store * Reply Memory.ClearReply :=
  (empty,
   Json {| Memory.cl_message := "All data cleared";
           Memory.cl_historyCount := 0;
           Memory.cl_collectionsCount := 0 |}).

(** POST /api/proxy: no URL validation and no timeout. *)
Definition proxy `{Platform} (startTime endTime : Z) (b : Relay.ProxyBody)
  : Relay.ProxyReply :=
  if negb (truthy (Relay.url b)) then Relay.Rejected 400 "URL is required"
  else
    match Relay.relay None startTime endTime b with
    | Returned responseData => Relay.Relayed responseData
    | Thrown message => Relay.failure message
    end.

End Simplified.

(** ** The mock authentication of the in-memory branch *)

Module Auth.

(** The JSON body of POST /api/auth/register and POST /api/auth/login. *)
Record Credentials : Type := {
  email : value;
  password : value;
  name : value
}.

Record MockUser : Type := {
  mu_id : string;
  mu_email : value;
  mu_name : value
}.

Record AuthReply : Type := {
  user : MockUser;
  message : string
}.

(** [s.split(sep)[0]] for a one-character separator: the text before the
    first occurrence of the separator, all of [s] when there is none. *)
Fixpoint split_first (sep : ascii) (s : string) : string :=
  match s with
  | EmptyString => EmptyString
  | String c rest =>
      if Ascii.eqb c sep then EmptyString else String c (split_first sep rest)
  end.

(** POST /api/auth/register with [supabase] undefined. *)
Definition register (now : Z) (b : Credentials) : Reply AuthReply :=
  if negb (truthy (email b)) || negb (truthy (password b))
  then JsonError 400 "Email and password are required"
  else
    Json {| user := {| mu_id := "mock_user_" ++ Number_toString now;
                       mu_email := email b;
                       mu_name := name b |};
            message := "Mock registration successful (no actual account created)" |}.

(** [email.split('@')[0]]: [split] exists on strings only. *)
Definition local_part (email : value) : Outcome value :=
  match email with
  | VStr s => Returned (VStr (split_first "@"%char s))
  | _ => Thrown "email.split is not a function"
  end.

(** POST /api/auth/login with [supabase] undefined. *)
Definition login (now : Z) (b : Credentials) : Reply AuthReply :=
  if negb (truthy (email b)) || negb (truthy (password b))
  then JsonError 400 "Email and password are required"
  else
    match local_part (email b) with
    | Thrown m => JsonError 500 m
    | Returned nm =>
        Json {| user := {| mu_id := "mock_user_" ++ Number_toString now;
                           mu_email := email b;
                           mu_name := nm |};
                message := "Mock login successful (no actual authentication)" |}
    end.

(** POST /api/auth/logout with [supabase] undefined. *)
Definition logout : Reply string := Json "Logged out successfully".

End Auth.

(** ** Runs of calls *)

(** One POST /api/history call: its two clock readings and its body. *)
Record SaveCall : Type := {
  sc_now : Z;
  sc_iso : string;
  sc_fields : Memory.RequestFields
}.

(** The item a call inserts, in the full server and in the simplified one. *)
Definition saved_item (c : SaveCall) : Memory.HistoryItem :=
  Memory.historyItem_of (sc_now c) (sc_iso c) (sc_fields c).

Definition saved_item_simplified (c : SaveCall) : Memory.HistoryItem :=
  Simplified.historyItem_of (sc_now c) (sc_iso c) (sc_fields c).

(** The store after a sequence of POST /api/history calls. *)
Definition saveAll (calls : list SaveCall) (st : Memory.Store) : Memory.Store :=
  fold_left (fun st c => fst (Memory.saveHistory (sc_now c) (sc_iso c) (sc_fields c) st))
            calls st.

Definition saveAll_simplified (calls : list SaveCall) (st : Simplified.Store)
  : Simplified.Store :=
  fold_left (fun st c => fst (Simplified.saveHistory (sc_now c) (sc_iso c) (sc_fields c) st))
            calls st.

(** One POST /api/collections/:id/requests call. *)
Record AddCall : Type := {
  ac_now : Z;
  ac_iso : string;
  ac_id : string;
  ac_fields : Memory.RequestFields
}.

(** The store after a sequence of POST /api/collections/:id/requests calls. *)
Definition addAll `{Platform} (calls : list AddCall) (st : Memory.Store) : Memory.Store :=
  fold_left (fun st c => fst (Memory.addCollectionRequest (ac_now c) (ac_iso c) (ac_id c)
                                (ac_fields c) st))
            calls st.

(** The request a call stores when its name is given. *)
Definition named_request (c : AddCall) : Memory.CollectionRequest :=
  {| Memory.r_id := Number_toString (ac_now c);
     Memory.r_collection_id := ac_id c;
     Memory.r_url := Memory.url (ac_fields c);
     Memory.r_method := Memory.method (ac_fields c);
     Memory.r_headers := Memory.headers (ac_fields c);
     Memory.r_body := Memory.body (ac_fields c);
     Memory.r_params := Memory.params (ac_fields c);
     Memory.r_name := Memory.name (ac_fields c);
     Memory.r_created_at := ac_iso c |}.

(** ** The vocabulary of the statements *)

(** [user_id || 'anonymous'] on a query parameter: the user a listing or a
    deletion is made for. *)
Definition effective_user (user_id : option string) : value :=
  or_else (qvalue user_id) (VStr "anonymous").

(** The test GET /api/history applies to each item. *)
Definition owned_by (user_id : option string) (item : Memory.HistoryItem) : bool :=
  strict_eq (Memory.h_user_id item) (effective_user user_id).

(** The number of stored requests that GET /api/stats reports. *)
Definition requests_total (st : Memory.Store) : option nat :=
  match Memory.stats None st with
  | Json s => Some (Memory.requestsCount s)
  | JsonError _ _ => None
  end.

(** A mapping of strings to strings as the object [params] carries it, and
    the pairs of it with a non-empty key and a non-empty value. *)
Definition as_values (m : list (string * string)) : list (string * value) :=
  map (fun kv => (fst kv, VStr (snd kv))) m.

Definition nonempty_pair (kv : string * string) : bool :=
  negb (fst kv =? EmptyString) && negb (snd kv =? EmptyString).

(** The digits of a decimal numeral, read left to right from [a]. *)
Fixpoint horner (a : Z) (d : Decimal.uint) : Z :=
  match d with
  | Decimal.Nil => a
  | Decimal.D0 l => horner (a * 10 + 0) l
  | Decimal.D1 l => horner (a * 10 + 1) l
  | Decimal.D2 l => horner (a * 10 + 2) l
  | Decimal.D3 l => horner (a * 10 + 3) l
  | Decimal.D4 l => horner (a * 10 + 4) l
  | Decimal.D5 l => horner (a * 10 + 5) l
  | Decimal.D6 l => horner (a * 10 + 6) l
  | Decimal.D7 l => horner (a * 10 + 7) l
  | Decimal.D8 l => horner (a * 10 + 8) l
  | Decimal.D9 l => horner (a * 10 + 9) l
  end%Z.

(** The value a reply carries, when it is a 200. *)
Definition payload {A : Type} (r : Reply A) : option A :=
  match r with
  | Json a => Some a
  | JsonError _ _ => None
  end.

(** The state-changing requests of the full server, and the store after a
    sequence of them. *)
Inductive Op : Type :=
| OpSaveHistory (now : Z) (iso : string) (b : Memory.RequestFields)
| OpDeleteHistory (id : string) (user_id : option string)
| OpCreateCollection (now : Z) (iso : string) (b : Memory.CollectionFields)
| OpDeleteCollection (id : string) (user_id : option string)
| OpAddCollectionRequest (now : Z) (iso : string) (id : string) (b : Memory.RequestFields)
| OpClear (user_id : option string).

Definition step `{Platform} (st : Memory.Store) (op : Op) : Memory.Store :=
  match op with
  | OpSaveHistory now iso b => fst (Memory.saveHistory now iso b st)
  | OpDeleteHistory id user_id => fst (Memory.deleteHistory id user_id st)
  | OpCreateCollection now iso b => fst (Memory.createCollection now iso b st)
  | OpDeleteCollection id user_id => fst (Memory.deleteCollection id user_id st)
  | OpAddCollectionRequest now iso id b => fst (Memory.addCollectionRequest now iso id b st)
  | OpClear user_id => fst (Memory.clear user_id st)
  end.

Definition run `{Platform} (ops : list Op) (st : Memory.Store) : Memory.Store :=
  fold_left step ops st.

(** A name that is a string with a character that is not white space. *)
Definition proper_name (v : value) : Prop :=
  exists s, v = VStr s /\ Exists (fun c => is_space c = false) (list_ascii_of_string s).

(** What every store reached from the empty one satisfies. *)
Record well_formed (st : Memory.Store) : Prop := {
  wf_cap : List.length (Memory.memoryHistory st) <= 100;
  wf_history_users :
    Forall (fun h => truthy (Memory.h_user_id h) = true) (Memory.memoryHistory st);
  wf_collection_users :
    Forall (fun c => truthy (Memory.c_user_id c) = true) (Memory.memoryCollections st);
  wf_collection_names :
    Forall (fun c => proper_name (Memory.c_name c)) (Memory.memoryCollections st)
}.

(** Whether the response declares JSON: the test of the relay on the
    content-type header. *)
Definition declares_json (response : Response) : bool :=
  match Relay.headers_get "content-type" (res_headers response) with
  | Some contentType => truthy (VStr contentType) && includes contentType "application/json"
  | None => false
  end.

(** [o[k]] on an object kept as its entries. *)
Fixpoint obj_get (k : string) (o : list (string * value)) : option value :=
  match o with
  | [] => None
  | (k', v) :: rest => if (k' =? k) then Some v else obj_get k rest
  end.


(** The collection POST /api/collections of the full server stores. *)
Definition created_collection (now : Z) (iso : string) (b : Memory.CollectionFields)
  : Memory.Collection :=
  {| Memory.c_id := Number_toString now;
     Memory.c_name := Memory.cf_name b;
     Memory.c_description := Memory.cf_description b;
     Memory.c_user_id := or_else (Memory.cf_user_id b) (VStr "anonymous");
     Memory.c_created_at := iso |}.

(** The test GET /api/collections applies to each collection. *)
Definition owns_collection (user_id : option string) (c : Memory.Collection) : bool :=
  strict_eq (Memory.c_user_id c) (effective_user user_id).

(** The store with one more collection at the head. *)
Definition with_collection (c : Memory.Collection) (st : Memory.Store) : Memory.Store :=
  {| Memory.memoryHistory := Memory.memoryHistory st;
     Memory.memoryCollections := c :: Memory.memoryCollections st;
     Memory.memoryCollectionRequests := Memory.memoryCollectionRequests st |}.

(** [l1] is [l2] with some elements left out, the others in their order. *)
Inductive subseq {A : Type} : list A -> list A -> Prop :=
| subseq_nil : subseq [] []
| subseq_skip (x : A) (l1 l2 : list A) : subseq l1 l2 -> subseq l1 (x :: l2)
| subseq_keep (x : A) (l1 l2 : list A) : subseq l1 l2 -> subseq (x :: l1) (x :: l2).

(** The history items a sequence of requests inserts, in the order of the
    requests. *)
Definition saved_by (ops : list Op) : list Memory.HistoryItem :=
  flat_map (fun op => match op with
                      | OpSaveHistory now iso b => [Memory.historyItem_of now iso b]
                      | _ => []
                      end) ops.

(** The numbers of a value are integers of magnitude at most 2^53: the
    integers a JavaScript number holds exactly, all written in plain
    decimal. *)
Fixpoint safe_numbers (v : value) : bool :=
  match v with
  | VNum n => (Z.abs n <=? 2 ^ 53)%Z
  | VArr items => forallb safe_numbers items
  | VObj props => forallb (fun '(_, x) => safe_numbers x) props
  | _ => true
  end.

(** ** Concrete requests, stores and platforms *)

(** A request body with a URL, a method, a user id and a name. *)
Definition fields (u m : string) (uid nm : value) : Memory.RequestFields :=
  {| Memory.url := VStr u;
     Memory.method := VStr m;
     Memory.headers := VUndefined;
     Memory.body := VUndefined;
     Memory.params := VUndefined;
     Memory.user_id := uid;
     Memory.name := nm |}.

(** [n] saves by one user, at the clock readings [1 .. n]. *)
Definition calls_of (uid : string) (n : nat) : list SaveCall :=
  map (fun i => {| sc_now := Z.of_nat i;
                   sc_iso := "2024-01-01T00:00:00.000Z";
                   sc_fields := fields "https://x" "POST" (VStr uid) VUndefined |})
      (seq 1 n).

(** A named request for the collection [id]. *)
Definition add_call (now : Z) (id nm : string) : AddCall :=
  {| ac_now := now;
     ac_iso := "2024-01-01T00:00:00.000Z";
     ac_id := id;
     ac_fields := fields "https://example.com/get" "GET" VUndefined (VStr nm) |}.

Definition collection_of (id uid : string) : Memory.Collection :=
  {| Memory.c_id := id;
     Memory.c_name := VStr "collection";
     Memory.c_description := VUndefined;
     Memory.c_user_id := VStr uid;
     Memory.c_created_at := "2024-01-01T00:00:00.000Z" |}.

(** Two users, one collection each, one request in each collection. *)
Definition two_users : Memory.Store :=
  {| Memory.memoryHistory := [];
     Memory.memoryCollections := [collection_of "c2" "u2"; collection_of "c1" "u1"];
     Memory.memoryCollectionRequests :=
       [named_request (add_call 4 "c2" "r2"); named_request (add_call 3 "c1" "r1")] |}.

(** A collection whose name is three spaces. *)
Definition blank_collection : Memory.CollectionFields :=
  {| Memory.cf_name := VStr "   ";
     Memory.cf_description := VStr "d";
     Memory.cf_user_id := VStr "u1" |}.

Definition proxy_body (u m bd ps : value) : Relay.ProxyBody :=
  {| Relay.url := u;
     Relay.method := m;
     Relay.headers := VUndefined;
     Relay.body := bd;
     Relay.params := ps |}.

(** A GET for a port nobody listens on. *)
Definition probe : Relay.ProxyBody :=
  proxy_body (VStr "http://127.0.0.1:9/") (VStr "GET") VUndefined VUndefined.

(** A platform whose URL parser accepts everything and whose network
    refuses every connection. *)
Definition refusing : Platform :=
  {| new_URL := fun _ => Returned {| pathname := "/" |};
     fetch := fun _ _ => Thrown "connect ECONNREFUSED 127.0.0.1:9" |}.


(** Three responses: an HTML page, a JSON document, and a body that is
    declared JSON and is not; the last one cannot be read a second time. *)
Definition html_response : Response :=
  {| res_status := 200;
     res_statusText := "OK";
     res_headers := [("content-type", "text/html")];
     json := Thrown "invalid json response body";
     text := Returned "<p>hi</p>";
     text_after_json := Thrown "body used already" |}.

Definition json_response : Response :=
  {| res_status := 201;
     res_statusText := "Created";
     res_headers := [("content-type", "application/json; charset=utf-8")];
     json := Returned (VObj [("ok", VBool true)]);
     text := Returned "{ }";
     text_after_json := Thrown "body used already" |}.

Definition broken_json_response : Response :=
  {| res_status := 200;
     res_statusText := "OK";
     res_headers := [("content-type", "application/json")];
     json := Thrown "invalid json response body";
     text := Returned "oops";
     text_after_json := Thrown "body used already" |}.

(** A platform whose URL parser accepts everything and whose network
    answers every request with [r]. *)
Definition serving (r : Response) : Platform :=
  {| new_URL := fun _ => Returned {| pathname := "/" |};
     fetch := fun _ _ => Returned r |}.

(** A collection of the simplified variant with no request yet. *)
Definition simplified_collection (id uid : string) : Simplified.Collection :=
  {| Simplified.c_id := id;
     Simplified.c_name := VStr "collection";
     Simplified.c_description := VStr EmptyString;
     Simplified.c_user_id := VStr uid;
     Simplified.c_created_at := "2024-01-01T00:00:00.000Z";
     Simplified.c_requests := None |}.

Definition simplified_store : Simplified.Store :=
  {| Simplified.memoryHistory := [];
     Simplified.memoryCollections :=
       [simplified_collection "c2" "u2"; simplified_collection "c1" "u1"] |}.

(** * Properties *)

(** ** The primitives on small inputs *)

Example ToString_array :
  ToString (VArr [VNum 1; VNull; VStr "a"; VArr [VNum (-2); VBool true]]) = "1,,a,-2,true".
Proof. reflexivity. Qed.
Example trim_tab_and_spaces : trim (String (ascii_of_N 9) "  a b  ") = "a b".
Proof. reflexivity. Qed.
Example JSON_stringify_object :
  JSON_stringify (VObj [("a", VNum 1); ("b", VArr [VStr "x"; VNull])])
  = Some ("{" ++ str1 dquote ++ "a" ++ str1 dquote ++ ":1," ++ str1 dquote ++ "b" ++ str1 dquote
          ++ ":[" ++ str1 dquote ++ "x" ++ str1 dquote ++ ",null]}").
Proof. reflexivity. Qed.
Example URLSearchParams_toString_escapes : URLSearchParams_toString [("a b", "1&2"); ("k", String (ascii_of_N 233) "~")] = "a+b=1%262&k=%C3%A9%7E".
Proof. reflexivity. Qed.
Example parseInt_prefixes : map parseInt ["10"; " 12px"; "-0x1F"; "abc"; "0x"; "0"; "+7"; ""] = [Some 10; Some 12; Some (-31); None; None; Some 0; Some 7; None]%Z.
Proof. reflexivity. Qed.
Example slice0_ends : (slice0 [1;2;3] 2, slice0 [1;2;3] (-1), slice0 [1;2;3] 50, slice0 [1;2;3] (-7)) = ([1;2],[1;2],[1;2;3],[]).
Proof. reflexivity. Qed.

(** ** Facts about the primitives *)

Section ListFacts.

Context {A : Type}.

Lemma slice0_firstn (l : list A) (n : nat) : slice0 l (Z.of_nat n) = firstn n l.
Proof.
  unfold slice0.
  destruct (Z.ltb_spec (Z.of_nat n) 0) as [Hneg | _]; [lia |].
  destruct (Nat.le_gt_cases n (List.length l)) as [Hle | Hgt].
  - rewrite Z.min_l by lia. now rewrite Nat2Z.id.
  - rewrite Z.min_r by lia. rewrite Nat2Z.id.
    rewrite !firstn_all2; [reflexivity | lia | lia].
Qed.

Lemma firstn_app_firstn (n : nat) (a b : list A) :
  firstn n (a ++ firstn n b) = firstn n (a ++ b).
Proof.
  rewrite !firstn_app, firstn_firstn.
  now replace (Nat.min (n - List.length a) n) with (n - List.length a) by lia.
Qed.

Lemma filter_all (p : A -> bool) (l : list A) :
  (forall x, In x l -> p x = true) -> filter p l = l.
Proof.
  intros Hall. apply forallb_filter_id, forallb_forall, Hall.
Qed.

Lemma filter_none (p : A -> bool) (l : list A) :
  (forall x, In x l -> p x = false) -> filter p l = [].
Proof.
  induction l as [| x l IH]; intros Hall; [reflexivity |].
  simpl. rewrite (Hall x (or_introl eq_refl)).
  apply IH. intros y Hy. apply Hall. now right.
Qed.

Lemma In_firstn (n : nat) (l : list A) (x : A) : In x (firstn n l) -> In x l.
Proof.
  intros Hin. rewrite <- (firstn_skipn n l). apply in_or_app. now left.
Qed.

End ListFacts.

(** ** The retention cap of the history *)

Lemma saveHistory_history now iso b st :
  Memory.memoryHistory (fst (Memory.saveHistory now iso b st))
  = firstn 100 (Memory.historyItem_of now iso b :: Memory.memoryHistory st).
Proof. unfold Memory.saveHistory. cbn [fst Memory.memoryHistory]. apply (slice0_firstn _ 100). Qed.

Lemma saveHistory_history_simplified now iso b st :
  Simplified.memoryHistory (fst (Simplified.saveHistory now iso b st))
  = firstn 100 (Simplified.historyItem_of now iso b :: Simplified.memoryHistory st).
Proof.
  unfold Simplified.saveHistory. cbn [fst Simplified.memoryHistory].
  apply (slice0_firstn _ 100).
Qed.

(** Prepending and truncating, call after call, keeps the newest entries:
    the inserted items, newest first, followed by the earlier content. *)
Lemma capped_run {A B : Type} (n : nat) (f : B -> A) (calls : list B) :
  calls <> [] ->
  forall h,
    fold_left (fun h c => firstn n (f c :: h)) calls h
    = firstn n (rev (map f calls) ++ h).
Proof.
  induction calls as [| c calls IH]; intros Hne h; [congruence |].
  cbn [fold_left map rev].
  destruct calls as [| c' calls'].
  - reflexivity.
  - rewrite IH by discriminate.
    rewrite firstn_app_firstn, <- app_assoc. reflexivity.
Qed.

Lemma saveAll_history calls : forall st,
  Memory.memoryHistory (saveAll calls st)
  = fold_left (fun h c => firstn 100 (saved_item c :: h)) calls (Memory.memoryHistory st).
Proof.
  induction calls as [| c calls IH]; intros st; [reflexivity |].
  change (saveAll (c :: calls) st)
    with (saveAll calls (fst (Memory.saveHistory (sc_now c) (sc_iso c) (sc_fields c) st))).
  rewrite IH, saveHistory_history. reflexivity.
Qed.

Lemma saveAll_history_simplified calls : forall st,
  Simplified.memoryHistory (saveAll_simplified calls st)
  = fold_left (fun h c => firstn 100 (saved_item_simplified c :: h)) calls
      (Simplified.memoryHistory st).
Proof.
  induction calls as [| c calls IH]; intros st; [reflexivity |].
  change (saveAll_simplified (c :: calls) st)
    with (saveAll_simplified calls
            (fst (Simplified.saveHistory (sc_now c) (sc_iso c) (sc_fields c) st))).
  rewrite IH, saveHistory_history_simplified. reflexivity.
Qed.

Lemma hd_firstn_snoc {A : Type} (n : nat) (xs : list A) (x : A) (h : list A) :
  hd_error (firstn (S n) (rev (xs ++ [x]) ++ h)) = Some x.
Proof. rewrite rev_app_distr. reflexivity. Qed.

(** C4. In the in-memory store of both variants, after any sequence of more
    than 100 POST /api/history calls, whatever the store held before and
    whoever the users are, the history holds at most 100 items: the newest
    100 of the inserted ones, newest first (the oldest are the ones
    dropped), so the item of the last call is present, at the head. *)
Theorem history_retains_newest_100 (calls : list SaveCall)
  (st : Memory.Store) (st' : Simplified.Store) :
  100 < List.length calls ->
  (List.length (Memory.memoryHistory (saveAll calls st)) <= 100
   /\ Memory.memoryHistory (saveAll calls st)
      = firstn 100 (rev (map saved_item calls))
   /\ forall earlier c, calls = (earlier ++ [c])%list ->
        hd_error (Memory.memoryHistory (saveAll calls st)) = Some (saved_item c))
  /\ (List.length (Simplified.memoryHistory (saveAll_simplified calls st')) <= 100
   /\ Simplified.memoryHistory (saveAll_simplified calls st')
      = firstn 100 (rev (map saved_item_simplified calls))
   /\ forall earlier c, calls = (earlier ++ [c])%list ->
        hd_error (Simplified.memoryHistory (saveAll_simplified calls st'))
        = Some (saved_item_simplified c)).
Proof.
  intros Hlen.
  assert (Hne : calls <> []) by (intros ->; cbn in Hlen; lia).
  split.
  - rewrite saveAll_history, (capped_run 100 saved_item calls Hne).
    split; [apply firstn_le_length | split].
    + rewrite firstn_app.
      replace (100 - List.length (rev (map saved_item calls))) with 0
        by (rewrite length_rev, length_map; lia).
      cbn [firstn]. apply app_nil_r.
    + intros earlier c ->. rewrite map_app. apply hd_firstn_snoc.
  - rewrite saveAll_history_simplified,
      (capped_run 100 saved_item_simplified calls Hne).
    split; [apply firstn_le_length | split].
    + rewrite firstn_app.
      replace (100 - List.length (rev (map saved_item_simplified calls))) with 0
        by (rewrite length_rev, length_map; lia).
      cbn [firstn]. apply app_nil_r.
    + intros earlier c ->. rewrite map_app. apply hd_firstn_snoc.
Qed.

Lemma history_retains_newest_100_witness :
  100 < List.length (calls_of "u1" 101)
  /\ List.length (Memory.memoryHistory (saveAll (calls_of "u1" 101) Memory.empty)) <= 100
  /\ hd_error (Memory.memoryHistory (saveAll (calls_of "u1" 101) Memory.empty))
     = Some (saved_item {| sc_now := 101;
                           sc_iso := "2024-01-01T00:00:00.000Z";
                           sc_fields := fields "https://x" "POST" (VStr "u1") VUndefined |}).
Proof.
  assert (Hlen : 100 < List.length (calls_of "u1" 101)) by (vm_compute; lia).
  pose proof (history_retains_newest_100 (calls_of "u1" 101) Memory.empty
                Simplified.empty Hlen) as [[Hcap [_ Hhd]] _].
  split; [exact Hlen | split; [exact Hcap |]].
  apply (Hhd (calls_of "u1" 100)). reflexivity.
Defined.

(** ** Requests of a collection *)

Lemma addCollectionRequest_named `{Platform} (c : AddCall) (st : Memory.Store) :
  truthy (Memory.name (ac_fields c)) = true ->
  Memory.addCollectionRequest (ac_now c) (ac_iso c) (ac_id c) (ac_fields c) st
  = ({| Memory.memoryHistory := Memory.memoryHistory st;
        Memory.memoryCollections := Memory.memoryCollections st;
        Memory.memoryCollectionRequests :=
          named_request c :: Memory.memoryCollectionRequests st |},
     Json (named_request c)).
Proof.
  intros Hname. unfold Memory.addCollectionRequest, Memory.request_name.
  rewrite Hname. reflexivity.
Qed.

(** X25. The full server never looks the collection up: the store of
    collections plays no part in what POST /api/collections/:id/requests
    replies and stores. *)
Lemma addCollectionRequest_ignores_collections `{Platform} now iso id b st cs :
  let st' := {| Memory.memoryHistory := Memory.memoryHistory st;
                Memory.memoryCollections := cs;
                Memory.memoryCollectionRequests := Memory.memoryCollectionRequests st |} in
  snd (Memory.addCollectionRequest now iso id b st')
  = snd (Memory.addCollectionRequest now iso id b st)
  /\ Memory.memoryCollectionRequests (fst (Memory.addCollectionRequest now iso id b st'))
     = Memory.memoryCollectionRequests (fst (Memory.addCollectionRequest now iso id b st)).
Proof.
  cbv zeta. unfold Memory.addCollectionRequest.
  destruct (Memory.request_name b); split; reflexivity.
Qed.

(** C1 (the full server at the failing input). With no collection stored,
    POST /api/collections/missing-id/requests with a named request replies
    200 with the new request, not 404, and the number of stored requests
    that GET /api/stats reports goes from 0 to 1. *)
Theorem add_request_to_missing_collection_is_stored `{Platform} :
  let c := add_call 1700000000000 "missing-id" "probe" in
  let r := Memory.addCollectionRequest (ac_now c) (ac_iso c) (ac_id c) (ac_fields c)
             Memory.empty in
  Memory.find_collection "missing-id" (Memory.memoryCollections Memory.empty) = None
  /\ snd r = Json (named_request c)
  /\ http_status (snd r) = 200%Z
  /\ Memory.memoryCollectionRequests (fst r) = [named_request c]
  /\ requests_total Memory.empty = Some 0
  /\ requests_total (fst r) = Some 1.
Proof.
  cbv zeta. rewrite addCollectionRequest_named by reflexivity.
  repeat split.
Qed.

(** X24. The simplified variant does what C1 states: an id that no stored
    collection carries is answered 404 and the store, and with it the number
    of stored requests, is left as it was. *)
Lemma simplified_add_request_not_found now iso id b st :
  (forall c, In c (Simplified.memoryCollections st) -> Simplified.c_id c <> id) ->
  Simplified.addCollectionRequest now iso id b st
  = (st, JsonError 404 "Collection not found")
  /\ Simplified.requests_count (fst (Simplified.addCollectionRequest now iso id b st))
     = Simplified.requests_count st.
Proof.
  intros Hmissing. unfold Simplified.addCollectionRequest.
  assert (Hnone : Simplified.findIndex (fun c => Simplified.c_id c =? id)
                    (Simplified.memoryCollections st) = None).
  { induction (Simplified.memoryCollections st) as [| c cs IH]; [reflexivity |].
    cbn [Simplified.findIndex].
    destruct (String.eqb_spec (Simplified.c_id c) id) as [Heq | _].
    - exfalso. apply (Hmissing c); [now left | exact Heq].
    - rewrite IH; [reflexivity |]. intros c' Hc'. apply Hmissing. now right. }
  rewrite Hnone. split; reflexivity.
Qed.

(** Listing a collection after a run of named additions: the additions
    made to this collection, newest first, before what was listed already. *)
Lemma listCollectionRequests_addAll `{Platform} (id : string) (calls : list AddCall) :
  Forall (fun c => truthy (Memory.name (ac_fields c)) = true) calls ->
  forall st,
    filter (fun item => Memory.r_collection_id item =? id)
           (Memory.memoryCollectionRequests (addAll calls st))
    = (rev (filter (fun item => Memory.r_collection_id item =? id)
                   (map named_request calls))
       ++ filter (fun item => Memory.r_collection_id item =? id)
            (Memory.memoryCollectionRequests st))%list.
Proof.
  induction 1 as [| c calls Hc _ IH]; intros st; [reflexivity |].
  change (addAll (c :: calls) st)
    with (addAll calls (fst (Memory.addCollectionRequest (ac_now c) (ac_iso c) (ac_id c)
                               (ac_fields c) st))).
  rewrite IH, addCollectionRequest_named by exact Hc.
  cbn [fst Memory.memoryCollectionRequests map filter].
  destruct (Memory.r_collection_id (named_request c) =? id).
  - cbn [rev]. now rewrite <- app_assoc.
  - reflexivity.
Qed.

(** C2 (the in-memory branch at the failing input). Two requests added to
    one collection, [first] and then [second], are listed newest first. *)
Theorem collection_requests_listed_newest_first `{Platform} :
  let first := add_call 1 "c1" "first" in
  let second := add_call 2 "c1" "second" in
  Memory.listCollectionRequests "c1" (addAll [first; second] Memory.empty)
  = Json [named_request second; named_request first].
Proof.
  cbv zeta. unfold Memory.listCollectionRequests.
  rewrite listCollectionRequests_addAll by (repeat constructor).
  reflexivity.
Qed.

(** ** DELETE /api/clear *)

(** Whatever remains in the filtered [memoryCollections] belongs to another
    user, so the test on each request never fails: with a user id given,
    DELETE /api/clear leaves [memoryCollectionRequests] as it was. *)
Lemma clear_keeps_every_request (uid : string) (st : Memory.Store) :
  truthy (qvalue (Some uid)) = true ->
  Memory.memoryCollectionRequests (fst (Memory.clear (Some uid) st))
  = Memory.memoryCollectionRequests st.
Proof.
  intros Htruthy. unfold Memory.clear. rewrite Htruthy.
  cbn [fst Memory.memoryCollectionRequests].
  apply filter_all. intros item _.
  destruct (Memory.find_collection _ _) as [collection |] eqn:Hfind; [| reflexivity].
  apply find_some in Hfind as [Hin _].
  apply filter_In in Hin as [_ Hother]. exact Hother.
Qed.

(** What DELETE /api/clear does to the history and to the collections. *)
Lemma clear_history_and_collections (uid : string) (st : Memory.Store) :
  truthy (qvalue (Some uid)) = true ->
  (forall h, In h (Memory.memoryHistory (fst (Memory.clear (Some uid) st)))
             <-> In h (Memory.memoryHistory st)
                 /\ strict_eq (Memory.h_user_id h) (VStr uid) = false)
  /\ (forall c, In c (Memory.memoryCollections (fst (Memory.clear (Some uid) st)))
                <-> In c (Memory.memoryCollections st)
                    /\ strict_eq (Memory.c_user_id c) (VStr uid) = false).
Proof.
  intros Htruthy. unfold Memory.clear. rewrite Htruthy.
  cbn [fst Memory.memoryHistory Memory.memoryCollections qvalue].
  split; intros x; rewrite filter_In, negb_true_iff; reflexivity.
Qed.

(** C3 (the code at the failing input). DELETE /api/clear?user_id=u1 removes
    the collection of u1 and keeps the request stored under it. *)
Theorem clear_keeps_requests_of_cleared_user :
  let st' := fst (Memory.clear (Some "u1") two_users) in
  Memory.memoryCollections st' = [collection_of "c2" "u2"]
  /\ Memory.memoryCollectionRequests st'
     = [named_request (add_call 4 "c2" "r2"); named_request (add_call 3 "c1" "r1")]
  /\ In (named_request (add_call 3 "c1" "r1")) (Memory.memoryCollectionRequests st')
  /\ Memory.find_collection "c1" (Memory.memoryCollections two_users)
     = Some (collection_of "c1" "u1").
Proof.
  cbv zeta. rewrite clear_keeps_every_request by reflexivity.
  repeat split. right. now left.
Qed.

(** ** DELETE /api/collections/:id *)

(** C10. In the in-memory branch DELETE /api/collections/:id drops exactly
    the requests whose collection_id is the id, so none is listed under it
    afterwards, for every caller; a collection with that id owned by another
    user stays in the store all the same. *)
Theorem deleteCollection_cascade_ignores_owner (id : string) (user_id : option string)
  (st : Memory.Store) :
  let st' := fst (Memory.deleteCollection id user_id st) in
  (forall r, In r (Memory.memoryCollectionRequests st')
             <-> In r (Memory.memoryCollectionRequests st)
                 /\ Memory.r_collection_id r <> id)
  /\ Memory.listCollectionRequests id st' = Json []
  /\ (forall c, In c (Memory.memoryCollections st) ->
                Memory.c_id c = id ->
                strict_eq (Memory.c_user_id c) (effective_user user_id) = false ->
                In c (Memory.memoryCollections st')).
Proof.
  cbv zeta. unfold Memory.deleteCollection, Memory.listCollectionRequests.
  cbn [fst Memory.memoryCollectionRequests Memory.memoryCollections].
  split; [| split].
  - intros r. rewrite filter_In, negb_true_iff.
    destruct (String.eqb_spec (Memory.r_collection_id r) id); intuition congruence.
  - f_equal. apply filter_none. intros r Hr.
    apply filter_In in Hr as [_ Hr]. now apply negb_true_iff in Hr.
  - intros c Hin _ Hother. apply filter_In. split; [exact Hin |].
    fold (effective_user user_id). rewrite Hother. now rewrite andb_false_r.
Qed.

(** A caller who does not own the collection: u2 deletes the collection of
    u1, which stays, and its requests go. *)
Example deleteCollection_by_other_user :
  let st' := fst (Memory.deleteCollection "c1" (Some "u2") two_users) in
  Memory.memoryCollections st' = Memory.memoryCollections two_users
  /\ Memory.memoryCollectionRequests st' = [named_request (add_call 4 "c2" "r2")].
Proof. split; reflexivity. Qed.

(** ** POST /api/collections *)

Lemma trimStart_spaces (s : string) :
  Forall (fun c => is_space c = true) (list_ascii_of_string s) ->
  trimStart s = EmptyString.
Proof.
  induction s as [| c s IH]; intros Hall; [reflexivity |].
  cbn [list_ascii_of_string] in Hall. inversion Hall as [| ? ? Hc Hrest]; subst.
  cbn [trimStart]. rewrite Hc. now apply IH.
Qed.

Lemma name_missing_blank (s : string) :
  Forall (fun c => is_space c = true) (list_ascii_of_string s) ->
  Memory.name_missing (VStr s) = Returned true.
Proof.
  intros Hall. unfold Memory.name_missing, trim.
  rewrite (trimStart_spaces s Hall).
  destruct (truthy (VStr s)); reflexivity.
Qed.

(** C8. In both variants, POST /api/collections with a name made of
    white space only (the empty name included) is answered 400 with
    [Collection name is required], and the store is the one before the call,
    so GET /api/collections lists what it listed before. *)
Theorem createCollection_blank_name_rejected (now : Z) (iso : string)
  (b : Memory.CollectionFields) (s : string)
  (st : Memory.Store) (st' : Simplified.Store) :
  Memory.cf_name b = VStr s ->
  Forall (fun c => is_space c = true) (list_ascii_of_string s) ->
  (Memory.createCollection now iso b st
   = (st, JsonError 400 "Collection name is required")
   /\ forall user_id,
        Memory.listCollections user_id (fst (Memory.createCollection now iso b st))
        = Memory.listCollections user_id st)
  /\ (Simplified.createCollection now iso b st'
      = (st', JsonError 400 "Collection name is required")
      /\ forall user_id,
           Simplified.listCollections user_id
             (fst (Simplified.createCollection now iso b st'))
           = Simplified.listCollections user_id st').
Proof.
  intros Hname Hblank.
  unfold Memory.createCollection, Simplified.createCollection.
  rewrite Hname, (name_missing_blank s Hblank).
  repeat split.
Qed.

Lemma createCollection_blank_name_rejected_witness :
  Memory.createCollection 5 "2024-01-01T00:00:00.000Z" blank_collection two_users
  = (two_users, JsonError 400 "Collection name is required").
Proof.
  refine (proj1 (proj1 (createCollection_blank_name_rejected 5 "2024-01-01T00:00:00.000Z"
                          blank_collection "   " two_users Simplified.empty
                          eq_refl _))).
  repeat constructor.
Defined.

(** An absent name, or any other falsy one, is rejected in the same way. *)
Lemma createCollection_no_name now iso b st :
  truthy (Memory.cf_name b) = false ->
  Memory.createCollection now iso b st
  = (st, JsonError 400 "Collection name is required").
Proof.
  intros Hfalsy. unfold Memory.createCollection, Memory.name_missing.
  now rewrite Hfalsy.
Qed.

(** ** The relay *)

(** *** The query string *)

Lemma appended_strings (m : list (string * string)) :
  Relay.appended (VObj (as_values m)) = filter nonempty_pair m.
Proof.
  unfold Relay.appended, as_values. cbn [own_entries].
  induction m as [| [k v] m IH]; [reflexivity |].
  cbn [map filter fst snd truthy]. unfold nonempty_pair at 1. cbn [fst snd].
  destruct (negb (k =? EmptyString) && negb (v =? EmptyString)).
  - cbn [map fst snd ToString]. f_equal. exact IH.
  - exact IH.
Qed.

Lemma appended_skips (es1 es2 : list (string * value)) (k : string) (v : value) :
  k = EmptyString \/ v = VStr EmptyString ->
  Relay.appended (VObj (es1 ++ (k, v) :: es2)) = Relay.appended (VObj (es1 ++ es2)).
Proof.
  intros Hempty. unfold Relay.appended. cbn [own_entries].
  rewrite !filter_app. cbn [filter fst snd].
  replace (truthy (VStr k) && truthy v) with false; [reflexivity |].
  destruct Hempty as [-> | ->]; [reflexivity |].
  now rewrite andb_false_r.
Qed.

(** C7. When [params] is an object with at least one entry, the final URL
    is the URL, a question mark and the serialization of the appended pairs;
    an entry whose key or value is the empty string appends nothing, so the
    query string is the one of the object without that entry; for a mapping
    of strings to strings the appended pairs are exactly the entries with a
    non-empty key and a non-empty value, in order; and for the parameters
    a=1, b empty the query string is a=1. *)
Theorem query_params_skip_empty (b : Relay.ProxyBody) (es : list (string * value)) :
  Relay.params b = VObj es ->
  es <> [] ->
  Relay.finalUrl b
  = ToString (Relay.url b) ++ "?" ++ URLSearchParams_toString (Relay.appended (VObj es))
  /\ (forall es1 k v es2,
         es = (es1 ++ (k, v) :: es2)%list ->
         k = EmptyString \/ v = VStr EmptyString ->
         URLSearchParams_toString (Relay.appended (VObj es))
         = URLSearchParams_toString (Relay.appended (VObj (es1 ++ es2))))
  /\ (forall m, es = as_values m ->
         Relay.appended (VObj es) = filter nonempty_pair m)
  /\ (es = as_values [("a", "1"); ("b", EmptyString)] ->
         Relay.finalUrl b = ToString (Relay.url b) ++ "?a=1").
Proof.
  intros Hparams Hne.
  assert (Hurl : Relay.finalUrl b
                 = ToString (Relay.url b) ++ "?"
                   ++ URLSearchParams_toString (Relay.appended (VObj es))).
  { unfold Relay.finalUrl. rewrite Hparams. cbn [truthy own_entries andb].
    destruct es as [| e es']; [congruence | reflexivity]. }
  split; [exact Hurl | split; [| split]].
  - intros es1 k v es2 -> Hempty. now rewrite appended_skips.
  - intros m ->. apply appended_strings.
  - intros ->. rewrite Hurl. reflexivity.
Qed.

Lemma query_params_skip_empty_witness :
  Relay.finalUrl (proxy_body (VStr "https://example.com/get") (VStr "GET") VUndefined
                    (VObj (as_values [("a", "1"); ("b", EmptyString)])))
  = "https://example.com/get?a=1".
Proof.
  refine (proj2 (proj2 (proj2
            (query_params_skip_empty
               (proxy_body (VStr "https://example.com/get") (VStr "GET") VUndefined
                  (VObj (as_values [("a", "1"); ("b", EmptyString)])))
               (as_values [("a", "1"); ("b", EmptyString)]) eq_refl _))) eq_refl).
  discriminate.
Defined.

(** *** The body of the outbound request *)

(** The test is made on the [method] field as received, before the default
    is applied. *)
Lemma body_attached_iff (timeout : option Z) (b : Relay.ProxyBody) :
  fo_body (Relay.fetchOptions timeout b) <> None
  <-> truthy (Relay.body b) = true
      /\ Relay.method b <> VStr "GET"
      /\ Relay.method b <> VStr "HEAD".
Proof.
  assert (Hneq : forall v s, negb (strict_eq v (VStr s)) = true <-> v <> VStr s).
  { intros v s. rewrite negb_true_iff. destruct v; cbn; try (split; congruence).
    destruct (String.eqb_spec s0 s); split; congruence. }
  unfold Relay.fetchOptions, Relay.attaches_body. cbn [fo_body].
  destruct (truthy (Relay.body b)) eqn:Hbody.
  - rewrite andb_true_r, <- !Hneq.
    destruct (negb (strict_eq (Relay.method b) (VStr "GET")));
      destruct (negb (strict_eq (Relay.method b) (VStr "HEAD"))); cbn;
      try (split; [congruence | intros (_ & ? & ?); congruence]).
    split; [now auto |]. intros _.
    destruct (Relay.body b); cbn in *; congruence.
  - rewrite andb_false_r. split; [congruence | intros (? & _); congruence].
Qed.

(** An attached body is the JSON text of the body. *)
Lemma body_attached_is_json (timeout : option Z) (b : Relay.ProxyBody) (s : string) :
  fo_body (Relay.fetchOptions timeout b) = Some s -> s = json_text (Relay.body b).
Proof.
  unfold Relay.fetchOptions. cbn [fo_body].
  destruct (Relay.attaches_body b); [| discriminate].
  destruct (Relay.body b); cbn; congruence.
Qed.

(** X22. With a method given, the outbound method is that method, and the
    body goes out exactly when it is truthy and the method is neither GET
    nor HEAD. *)
Lemma body_attached_method_given (timeout : option Z) (b : Relay.ProxyBody) :
  truthy (Relay.method b) = true ->
  fo_method (Relay.fetchOptions timeout b) = Relay.method b
  /\ (fo_body (Relay.fetchOptions timeout b) <> None
      <-> truthy (Relay.body b) = true
          /\ fo_method (Relay.fetchOptions timeout b) <> VStr "GET"
          /\ fo_method (Relay.fetchOptions timeout b) <> VStr "HEAD").
Proof.
  intros Hmethod.
  assert (Hm : fo_method (Relay.fetchOptions timeout b) = Relay.method b).
  { unfold Relay.fetchOptions, or_else. cbn [fo_method]. now rewrite Hmethod. }
  split; [exact Hm |]. rewrite Hm. apply body_attached_iff.
Qed.

(** C6 (the code at the failing input). With no [method] field and a body,
    the outbound request is a GET and carries the body. *)
Theorem body_attached_to_default_get (timeout : option Z) :
  let b := proxy_body (VStr "https://example.com/items") VUndefined
             (VObj [("a", VNum 1)]) VUndefined in
  fo_method (Relay.fetchOptions timeout b) = VStr "GET"
  /\ fo_body (Relay.fetchOptions timeout b)
     = Some ("{" ++ str1 dquote ++ "a" ++ str1 dquote ++ ":1}").
Proof. split; reflexivity. Qed.

(** *** Failures of the outbound call *)

(** The handler always replies: 400 for a missing or unparsable URL, 200
    with the relayed response, or 500 with the error message, status 500 and
    zero time and size. *)
Lemma proxy_reply_shapes `{Platform} (startTime endTime : Z) (b : Relay.ProxyBody) :
  (exists error, Relay.proxy startTime endTime b = Relay.Rejected 400 error)
  \/ (exists r, Relay.proxy startTime endTime b = Relay.Relayed r)
  \/ (exists m, Relay.proxy startTime endTime b = Relay.failure m).
Proof.
  unfold Relay.proxy.
  destruct (negb (truthy (Relay.url b))); [left; eauto |].
  destruct (new_URL _); [| left; eauto].
  destruct (Relay.relay _ _ _ _); right; [left | right]; eauto.
Qed.

(** C5, as amended. When the URL passes validation and [fetch] fails with a
    message, the handler answers with HTTP status 500 and a body carrying
    that message, status 500, time 0 and size 0. *)
Theorem network_failure_reply `{Platform} (startTime endTime : Z) (b : Relay.ProxyBody)
  (u : URL) (message : string) :
  truthy (Relay.url b) = true ->
  new_URL (ToString (Relay.url b)) = Returned u ->
  fetch (Relay.finalUrl b) (Relay.fetchOptions (Some 30000%Z) b) = Thrown message ->
  Relay.proxy startTime endTime b
  = Relay.Failed 500 {| Relay.f_error := message;
                        Relay.f_time := 0;
                        Relay.f_size := 0;
                        Relay.f_status := 500 |}
  /\ Relay.reply_code (Relay.proxy startTime endTime b) = 500%Z.
Proof.
  intros Hurl Hparse Hfetch.
  assert (Hreply : Relay.proxy startTime endTime b = Relay.failure message).
  { unfold Relay.proxy, Relay.relay. now rewrite Hurl, Hparse, Hfetch. }
  rewrite Hreply. split; reflexivity.
Qed.

Lemma network_failure_reply_witness :
  @Relay.proxy refusing 10 20 probe
  = Relay.Failed 500 {| Relay.f_error := "connect ECONNREFUSED 127.0.0.1:9";
                        Relay.f_time := 0;
                        Relay.f_size := 0;
                        Relay.f_status := 500 |}.
Proof.
  exact (proj1 (@network_failure_reply refusing 10 20 probe {| pathname := "/" |}
                  "connect ECONNREFUSED 127.0.0.1:9" eq_refl eq_refl eq_refl)).
Defined.

(** C5, as stated, fails: the connection is refused and the response the
    caller receives has status 500, which is not a successful one. *)
Lemma network_failure_is_not_a_successful_response :
  @fetch refusing (Relay.finalUrl probe) (Relay.fetchOptions (Some 30000%Z) probe)
  = Thrown "connect ECONNREFUSED 127.0.0.1:9"
  /\ Relay.reply_code (@Relay.proxy refusing 10 20 probe) = 500%Z
  /\ ~ (200 <= Relay.reply_code (@Relay.proxy refusing 10 20 probe) < 300)%Z.
Proof.
  split; [reflexivity | split; [reflexivity |]].
  cbn. lia.
Qed.

(** X23. The simplified variant validates no URL: whatever truthy URL it is
    given goes to [fetch], and a failed [fetch] is answered by the 500 of
    the catch branch with the message, time 0 and size 0. *)
Lemma network_failure_reply_simplified `{Platform} (startTime endTime : Z)
  (b : Relay.ProxyBody) (message : string) :
  truthy (Relay.url b) = true ->
  fetch (Relay.finalUrl b) (Relay.fetchOptions None b) = Thrown message ->
  Simplified.proxy startTime endTime b = Relay.failure message.
Proof.
  intros Hurl Hfetch. unfold Simplified.proxy, Relay.relay.
  now rewrite Hurl, Hfetch.
Qed.

(** ** GET /api/history *)

(** *** [parseInt] reads back the decimal rendering of a positive integer *)

Lemma parse_digits_numeral (d : Decimal.uint) : forall a,
  parse_digits 10 (Some a) (NilEmpty.string_of_uint d) = Some (horner a d).
Proof.
  induction d; intros a; cbn [NilEmpty.string_of_uint horner]; [reflexivity | ..];
    cbn [parse_digits]; apply IHd.
Qed.

Lemma parse_digits_numeral_start (d : Decimal.uint) :
  d <> Decimal.Nil ->
  parse_digits 10 None (NilEmpty.string_of_uint d) = Some (horner 0 d).
Proof.
  destruct d; intros Hne; [congruence | ..];
    cbn [NilEmpty.string_of_uint horner parse_digits]; apply parse_digits_numeral.
Qed.

Lemma horner_of_uint_acc (d : Decimal.uint) : forall acc,
  Z.pos (Pos.of_uint_acc d acc) = horner (Z.pos acc) d.
Proof.
  induction d; intros acc; cbn [Pos.of_uint_acc horner]; [reflexivity | ..];
    rewrite IHd; f_equal; lia.
Qed.

Lemma horner_of_uint (d : Decimal.uint) : Z.of_N (Pos.of_uint d) = horner 0 d.
Proof.
  induction d; cbn [Pos.of_uint horner]; [reflexivity | exact IHd | ..];
    cbn [Z.of_N]; rewrite horner_of_uint_acc; reflexivity.
Qed.

(** On a numeral, [parseInt] finds no white space, no sign and no
    hexadecimal prefix to remove. *)
Lemma parseInt_numeral (d : Decimal.uint) :
  d <> Decimal.Nil ->
  parseInt (NilEmpty.string_of_uint d)
  = match parse_digits 10 None (NilEmpty.string_of_uint d) with
    | Some n => Some (1 * n)%Z
    | None => None
    end.
Proof.
  destruct d as [| d | d | d | d | d | d | d | d | d | d]; intros Hne;
    [congruence | ..]; destruct d; reflexivity.
Qed.

Lemma string_of_numeral (d : Decimal.uint) :
  d <> Decimal.Nil -> NilZero.string_of_uint d = NilEmpty.string_of_uint d.
Proof. destruct d; intros Hne; [congruence | ..]; reflexivity. Qed.

Lemma parseInt_Number_toString (n : Z) :
  (0 < n)%Z -> parseInt (Number_toString n) = Some n.
Proof.
  destruct n as [| p | p]; intros Hpos; try lia.
  unfold Number_toString. cbn [Z.to_int NilZero.string_of_int].
  assert (Hne : Pos.to_uint p <> Decimal.Nil).
  { intros Hnil. pose proof (DecimalPos.Unsigned.of_to p) as Hback.
    rewrite Hnil in Hback. discriminate. }
  rewrite (string_of_numeral _ Hne), (parseInt_numeral _ Hne),
    (parse_digits_numeral_start _ Hne), <- horner_of_uint,
    DecimalPos.Unsigned.of_to.
  f_equal; lia.
Qed.

Lemma limit_of_positive (n : Z) :
  (0 < n)%Z -> Memory.limit_of (Some (Number_toString n)) = n.
Proof.
  intros Hpos. unfold Memory.limit_of. cbn [qvalue ToString].
  rewrite (parseInt_Number_toString n Hpos).
  destruct (Z.eqb_spec n 0); [lia | reflexivity].
Qed.

Lemma slice0_positive {A : Type} (l : list A) (n : Z) :
  (0 <= n)%Z -> slice0 l n = firstn (Z.to_nat n) l.
Proof.
  intros Hn. rewrite <- (slice0_firstn l (Z.to_nat n)). now rewrite Z2Nat.id.
Qed.

Lemma strict_eq_string (v : value) (s : string) :
  strict_eq v (VStr s) = true -> v = VStr s.
Proof.
  destruct v; cbn; try discriminate.
  intros Heq. apply String.eqb_eq in Heq. now subst.
Qed.

Lemma effective_user_string (user_id : option string) :
  exists s, effective_user user_id = VStr s.
Proof.
  unfold effective_user, or_else.
  destruct user_id as [s |]; cbn [qvalue].
  - destruct (truthy (VStr s)); eauto.
  - cbn. eauto.
Qed.

(** The store after a run of saves from the empty store. *)
Lemma saveAll_from_empty (calls : list SaveCall) :
  Memory.memoryHistory (saveAll calls Memory.empty)
  = firstn 100 (rev (map saved_item calls)).
Proof.
  destruct calls as [| c calls]; [reflexivity |].
  rewrite saveAll_history, capped_run by discriminate.
  cbn [Memory.memoryHistory Memory.empty]. now rewrite app_nil_r.
Qed.

Section SubseqFacts.

Context {A : Type}.

Lemma subseq_nil_l (l : list A) : subseq [] l.
Proof. induction l; [apply subseq_nil | apply subseq_skip; assumption]. Qed.

Lemma subseq_trans (l1 l2 l3 : list A) : subseq l1 l2 -> subseq l2 l3 -> subseq l1 l3.
Proof.
  intros H12 H23. revert l1 H12.
  induction H23 as [| x l2 l3 _ IH | x l2 l3 _ IH]; intros l1 H12.
  - exact H12.
  - apply subseq_skip. now apply IH.
  - inversion H12 as [| y k1 k2 Hskip | y k1 k2 Hkeep]; subst.
    + apply subseq_skip. now apply IH.
    + apply subseq_keep. now apply IH.
Qed.

Lemma subseq_filter (p : A -> bool) (l : list A) : subseq (filter p l) l.
Proof.
  induction l as [| x l IH]; [constructor |].
  cbn [filter]. destruct (p x); [apply subseq_keep | apply subseq_skip]; exact IH.
Qed.

Lemma subseq_firstn (n : nat) (l : list A) : subseq (firstn n l) l.
Proof.
  revert l. induction n as [| n IH]; intros l.
  - rewrite firstn_O. apply subseq_nil_l.
  - destruct l as [| x l]; [constructor |]. cbn [firstn]. apply subseq_keep. apply IH.
Qed.

End SubseqFacts.

(** Whatever requests are served, the history holds items that were saved,
    later saves ahead of earlier ones. *)
Lemma run_history_newest_first `{Platform} (ops : list Op) :
  forall st items,
    subseq (Memory.memoryHistory st) (rev items) ->
    subseq (Memory.memoryHistory (run ops st)) (rev (items ++ saved_by ops)).
Proof.
  induction ops as [| op ops IH]; intros st items Hst.
  - cbn [run fold_left saved_by flat_map]. now rewrite app_nil_r.
  - change (run (op :: ops) st) with (run ops (step st op)).
    change (saved_by (op :: ops))
      with ((match op with
             | OpSaveHistory now iso b => [Memory.historyItem_of now iso b]
             | _ => []
             end ++ saved_by ops)%list).
    rewrite app_assoc. apply IH.
    destruct op as [now iso b | id q | now iso b | id q | now iso id b | q]; cbn [step];
      rewrite ?app_nil_r.
    + rewrite saveHistory_history, rev_app_distr. cbn [rev app].
      eapply subseq_trans; [apply subseq_firstn |]. apply subseq_keep. exact Hst.
    + cbn [Memory.deleteHistory fst Memory.memoryHistory].
      eapply subseq_trans; [apply subseq_filter | exact Hst].
    + unfold Memory.createCollection.
      destruct (Memory.name_missing (Memory.cf_name b)) as [[|] | m]; exact Hst.
    + exact Hst.
    + unfold Memory.addCollectionRequest. destruct (Memory.request_name b); exact Hst.
    + unfold Memory.clear. destruct (truthy (qvalue q)); cbn [fst Memory.memoryHistory].
      * eapply subseq_trans; [apply subseq_filter | exact Hst].
      * apply subseq_nil_l.
Qed.

Lemma effective_user_cases (user_id : option string) :
  (forall u, user_id = Some u -> u <> EmptyString -> effective_user user_id = VStr u)
  /\ (user_id = None \/ user_id = Some EmptyString ->
      effective_user user_id = VStr "anonymous").
Proof.
  split.
  - intros u -> Hu. unfold effective_user, or_else. cbn [qvalue truthy].
    destruct (String.eqb_spec u EmptyString); [contradiction | reflexivity].
  - intros [-> | ->]; reflexivity.
Qed.

(** C9, as amended. For a positive limit, GET /api/history answers the
    first [limit] items of the history that carry the user id of the caller,
    in the order of the store; every item listed carries the user id given,
    or anonymous when the user id given is absent or empty, and there are
    at most [limit] of them; with no limit given the bound is 50, and a
    limit of 0 is read as no limit given; and the order is newest first:
    whatever requests the server has served from its empty start, the
    listing is made of saved items, later saves ahead of earlier ones. *)
Theorem listHistory_positive_limit `{Platform} (user_id : option string) (n : Z)
  (st : Memory.Store) :
  (0 < n)%Z ->
  Memory.listHistory user_id (Some (Number_toString n)) st
  = Json (firstn (Z.to_nat n) (filter (owned_by user_id) (Memory.memoryHistory st)))
  /\ (forall items,
        Memory.listHistory user_id (Some (Number_toString n)) st = Json items ->
        (Z.of_nat (List.length items) <= n)%Z
        /\ subseq items (Memory.memoryHistory st)
        /\ (forall u, user_id = Some u -> u <> EmptyString ->
              Forall (fun item => Memory.h_user_id item = VStr u) items)
        /\ (user_id = None \/ user_id = Some EmptyString ->
              Forall (fun item => Memory.h_user_id item = VStr "anonymous") items))
  /\ Memory.listHistory user_id None st
     = Json (firstn 50 (filter (owned_by user_id) (Memory.memoryHistory st)))
  /\ Memory.listHistory user_id (Some (Number_toString 0)) st
     = Memory.listHistory user_id None st
  /\ (forall ops items,
        Memory.listHistory user_id (Some (Number_toString n)) (run ops Memory.empty)
        = Json items ->
        subseq items (rev (saved_by ops)))
  /\ (forall calls,
        Memory.listHistory user_id (Some (Number_toString n)) (saveAll calls Memory.empty)
        = Json (firstn (Z.to_nat n)
                  (filter (owned_by user_id) (firstn 100 (rev (map saved_item calls)))))).
Proof.
  intros Hpos.
  assert (Hlist : forall st0,
             Memory.listHistory user_id (Some (Number_toString n)) st0
             = Json (firstn (Z.to_nat n)
                       (filter (owned_by user_id) (Memory.memoryHistory st0)))).
  { intros st0. unfold Memory.listHistory.
    rewrite (limit_of_positive n Hpos), slice0_positive by lia. reflexivity. }
  assert (Hsub : forall st0,
             subseq (firstn (Z.to_nat n)
                       (filter (owned_by user_id) (Memory.memoryHistory st0)))
                    (Memory.memoryHistory st0)).
  { intros st0. eapply subseq_trans; [apply subseq_firstn | apply subseq_filter]. }
  assert (Howner : forall items v,
             Memory.listHistory user_id (Some (Number_toString n)) st = Json items ->
             effective_user user_id = VStr v ->
             Forall (fun item => Memory.h_user_id item = VStr v) items).
  { intros items v Hitems Hv. rewrite Hlist in Hitems. injection Hitems as <-.
    apply Forall_forall. intros item Hin.
    apply In_firstn in Hin. apply filter_In in Hin as [_ Howned].
    unfold owned_by in Howned. rewrite Hv in Howned. now apply strict_eq_string. }
  destruct (effective_user_cases user_id) as [Hgiven Habsent].
  split; [apply Hlist | split; [| split; [| split; [| split]]]].
  - intros items Hitems. split; [| split; [| split]].
    + rewrite Hlist in Hitems. injection Hitems as <-.
      pose proof (firstn_le_length (Z.to_nat n)
                    (filter (owned_by user_id) (Memory.memoryHistory st))). lia.
    + rewrite Hlist in Hitems. injection Hitems as <-. apply Hsub.
    + intros u Hu Hne. apply (Howner items u Hitems). now apply Hgiven.
    + intros Hnone. apply (Howner items "anonymous" Hitems). now apply Habsent.
  - unfold Memory.listHistory. apply (f_equal Json). apply (slice0_firstn _ 50).
  - reflexivity.
  - intros ops items Hitems. rewrite Hlist in Hitems. injection Hitems as <-.
    eapply subseq_trans; [apply Hsub |].
    apply (run_history_newest_first ops Memory.empty []). constructor.
  - intros calls. rewrite Hlist. now rewrite saveAll_from_empty.
Qed.

Lemma listHistory_positive_limit_witness :
  Memory.listHistory (Some "u1") (Some (Number_toString 2)) (saveAll (calls_of "u1" 3) Memory.empty)
  = Json (firstn 2 (filter (owned_by (Some "u1"))
                      (Memory.memoryHistory (saveAll (calls_of "u1" 3) Memory.empty)))).
Proof.
  refine (proj1 (@listHistory_positive_limit refusing (Some "u1") 2
                   (saveAll (calls_of "u1" 3) Memory.empty) _)).
  lia.
Defined.

(** C9, as stated, fails at limit 0 and at the empty user id: with one item
    stored for the user, the listing for limit 0 holds it; and with one item
    saved under no user id, the listing for the empty user id holds that
    item, whose user id is anonymous and not the one given. *)
Lemma listHistory_falsy_inputs_read_as_absent :
  (exists item,
     Memory.listHistory (Some "u1") (Some (Number_toString 0))
       (saveAll (calls_of "u1" 1) Memory.empty) = Json [item]
     /\ ~ (Z.of_nat (List.length [item]) <= 0)%Z)
  /\ (exists item,
        Memory.listHistory (Some EmptyString) (Some (Number_toString 10))
          (fst (Memory.saveHistory 1 "2024-01-01T00:00:00.000Z"
                  (fields "https://x" "POST" VUndefined VUndefined) Memory.empty))
        = Json [item]
        /\ Memory.h_user_id item = VStr "anonymous"
        /\ Memory.h_user_id item <> VStr EmptyString).
Proof.
  split.
  - eexists. split; [reflexivity |]. cbn. lia.
  - eexists. split; [reflexivity |]. split; [reflexivity | discriminate].
Qed.

(** * Further properties of the handlers *)

(** ** Helpers *)

Lemma strict_eq_string_iff (v : value) (s : string) :
  strict_eq v (VStr s) = true <-> v = VStr s.
Proof.
  split; [apply strict_eq_string |].
  intros ->. cbn. apply String.eqb_refl.
Qed.

Lemma strict_eq_string_false (v : value) (s : string) :
  strict_eq v (VStr s) = false <-> v <> VStr s.
Proof.
  rewrite <- strict_eq_string_iff. destruct (strict_eq v (VStr s)); split; congruence.
Qed.

Lemma effective_user_given (u : string) :
  truthy (qvalue (Some u)) = true -> effective_user (Some u) = VStr u.
Proof. intros Hu. unfold effective_user, or_else. now rewrite Hu. Qed.

Lemma effective_user_truthy (user_id : option string) :
  truthy (effective_user user_id) = true.
Proof.
  unfold effective_user, or_else.
  destruct (truthy (qvalue user_id)) eqn:Hq; [exact Hq | reflexivity].
Qed.

Section FilterFacts.

Context {A : Type}.

Lemma filter_filter (p q : A -> bool) (l : list A) :
  filter p (filter q l) = filter (fun x => q x && p x) l.
Proof.
  induction l as [| x l IH]; [reflexivity |].
  cbn [filter]. destruct (q x); cbn [filter andb]; [| exact IH].
  destruct (p x); now rewrite IH.
Qed.

Lemma filter_idem (p : A -> bool) (l : list A) : filter p (filter p l) = filter p l.
Proof.
  rewrite filter_filter. apply filter_ext. intros x. now destruct (p x).
Qed.

Lemma filter_length_le (p : A -> bool) (l : list A) :
  List.length (filter p l) <= List.length l.
Proof.
  induction l as [| x l IH]; [reflexivity |].
  cbn [filter]. destruct (p x); cbn [List.length]; lia.
Qed.

Lemma Forall_filter (P : A -> Prop) (p : A -> bool) (l : list A) :
  Forall P l -> Forall P (filter p l).
Proof.
  intros Hall. apply Forall_forall. intros x Hin.
  apply filter_In in Hin as [Hin _]. revert x Hin. now apply Forall_forall.
Qed.

Lemma Forall_firstn (P : A -> Prop) (n : nat) (l : list A) :
  Forall P l -> Forall P (firstn n l).
Proof.
  intros Hall. apply Forall_forall. intros x Hin.
  apply In_firstn in Hin. revert x Hin. now apply Forall_forall.
Qed.

End FilterFacts.

(** ** DELETE /api/history/:id *)

Lemma store_eta (st : Memory.Store) :
  {| Memory.memoryHistory := Memory.memoryHistory st;
     Memory.memoryCollections := Memory.memoryCollections st;
     Memory.memoryCollectionRequests := Memory.memoryCollectionRequests st |} = st.
Proof. now destruct st. Qed.

(** X1. DELETE /api/history/:id removes exactly the items that carry the id
    and belong to the caller (anonymous when no user id is given), keeps the
    others in their order and leaves collections and requests alone; when
    no item matches, for instance when the id belongs to another user, the
    store is unchanged; and a second deletion changes nothing more. *)
Theorem deleteHistory_removes_only_own (id : string) (user_id : option string)
  (st : Memory.Store) :
  let st' := fst (Memory.deleteHistory id user_id st) in
  (forall h, In h (Memory.memoryHistory st')
             <-> In h (Memory.memoryHistory st)
                 /\ ~ (Memory.h_id h = id /\ Memory.h_user_id h = effective_user user_id))
  /\ Memory.memoryHistory st'
     = filter (fun h => negb ((Memory.h_id h =? id) && owned_by user_id h))
         (Memory.memoryHistory st)
  /\ Memory.memoryCollections st' = Memory.memoryCollections st
  /\ Memory.memoryCollectionRequests st' = Memory.memoryCollectionRequests st
  /\ ((forall h, In h (Memory.memoryHistory st) -> Memory.h_id h = id ->
                 Memory.h_user_id h <> effective_user user_id) ->
      st' = st)
  /\ fst (Memory.deleteHistory id user_id st') = st'
  /\ snd (Memory.deleteHistory id user_id st) = Json "History item deleted".
Proof.
  cbv zeta. unfold Memory.deleteHistory. cbn [fst snd Memory.memoryHistory
    Memory.memoryCollections Memory.memoryCollectionRequests].
  fold (effective_user user_id).
  destruct (effective_user_string user_id) as [u Hu]. rewrite Hu.
  assert (Hmatch : forall h,
             (Memory.h_id h =? id) && strict_eq (Memory.h_user_id h) (VStr u) = true
             <-> Memory.h_id h = id /\ Memory.h_user_id h = VStr u).
  { intros h. now rewrite andb_true_iff, String.eqb_eq, strict_eq_string_iff. }
  repeat split.
  - now apply filter_In in H as [? _].
  - apply filter_In in H as [_ Hkeep]. apply negb_true_iff in Hkeep.
    intros Hboth. apply Hmatch in Hboth. congruence.
  - intros [Hin Hnot]. apply filter_In. split; [exact Hin |].
    apply negb_true_iff.
    destruct ((Memory.h_id h =? id) && strict_eq (Memory.h_user_id h) (VStr u)) eqn:Hb;
      [| reflexivity].
    exfalso. apply Hnot. now apply Hmatch.
  - unfold owned_by. now rewrite Hu.
  - intros Hnone. rewrite filter_all; [apply store_eta |].
    intros h Hin. apply negb_true_iff.
    destruct ((Memory.h_id h =? id) && strict_eq (Memory.h_user_id h) (VStr u)) eqn:Hb;
      [| reflexivity].
    apply Hmatch in Hb as [Hid Huser]. exfalso. exact (Hnone h Hin Hid Huser).
  - now rewrite filter_idem.
Qed.

(** ** Saving and listing the history *)

Lemma listHistory_unfold (q : option string) (n : Z) (st : Memory.Store) :
  (0 < n)%Z ->
  Memory.listHistory q (Some (Number_toString n)) st
  = Json (firstn (Z.to_nat n) (filter (owned_by q) (Memory.memoryHistory st))).
Proof.
  intros Hpos. unfold Memory.listHistory.
  rewrite (limit_of_positive n Hpos), slice0_positive by lia. reflexivity.
Qed.

Lemma firstn_100_cons {A : Type} (x : A) (l : list A) :
  firstn 100 (x :: l) = x :: firstn 99 l.
Proof. reflexivity. Qed.

(** X2. After POST /api/history, GET /api/history for the user the item
    was saved under (anonymous when the body names none) and a positive
    limit lists the new item first, followed by that user's items among the
    99 newest of the earlier history; the listing of any other user shows
    that user's items among those 99; and from the empty store the listing
    is the new item alone. *)
Theorem saved_item_heads_listing (now : Z) (iso : string) (b : Memory.RequestFields)
  (q : option string) (n : Z) (st : Memory.Store) :
  (0 < n)%Z ->
  effective_user q = or_else (Memory.user_id b) (VStr "anonymous") ->
  let item := Memory.historyItem_of now iso b in
  let st' := fst (Memory.saveHistory now iso b st) in
  snd (Memory.saveHistory now iso b st) = Json item
  /\ Memory.listHistory q (Some (Number_toString n)) st'
     = Json (firstn (Z.to_nat n)
               (item :: filter (owned_by q) (firstn 99 (Memory.memoryHistory st))))
  /\ (forall q', effective_user q' <> effective_user q ->
        Memory.listHistory q' (Some (Number_toString n)) st'
        = Json (firstn (Z.to_nat n)
                  (filter (owned_by q') (firstn 99 (Memory.memoryHistory st)))))
  /\ (st = Memory.empty ->
        Memory.listHistory q (Some (Number_toString n)) st' = Json [item]).
Proof.
  intros Hpos Huser. cbv zeta.
  assert (Hhist : Memory.memoryHistory (fst (Memory.saveHistory now iso b st))
                  = Memory.historyItem_of now iso b
                    :: firstn 99 (Memory.memoryHistory st)).
  { rewrite saveHistory_history. apply firstn_100_cons. }
  assert (Hown : owned_by q (Memory.historyItem_of now iso b) = true).
  { unfold owned_by. cbn [Memory.historyItem_of Memory.h_user_id]. rewrite Huser.
    destruct (effective_user_string q) as [u Hu]. rewrite <- Huser, Hu.
    now apply strict_eq_string_iff. }
  assert (Hlist : Memory.listHistory q (Some (Number_toString n))
                    (fst (Memory.saveHistory now iso b st))
                  = Json (firstn (Z.to_nat n)
                            (Memory.historyItem_of now iso b
                             :: filter (owned_by q) (firstn 99 (Memory.memoryHistory st))))).
  { rewrite (listHistory_unfold q n _ Hpos), Hhist. cbn [filter]. now rewrite Hown. }
  split; [reflexivity | split; [exact Hlist | split]].
  - intros q' Hother. rewrite (listHistory_unfold q' n _ Hpos), Hhist. cbn [filter].
    replace (owned_by q' (Memory.historyItem_of now iso b)) with false; [reflexivity |].
    symmetry. unfold owned_by. cbn [Memory.historyItem_of Memory.h_user_id].
    rewrite <- Huser. destruct (effective_user_string q') as [u' Hu']. rewrite Hu' in *.
    apply strict_eq_string_false. congruence.
  - intros ->. rewrite Hlist. cbn [Memory.empty Memory.memoryHistory firstn filter].
    destruct (Z.to_nat n) as [| k] eqn:Hk; [lia |].
    cbn [firstn]. now destruct k.
Qed.

Lemma saved_item_heads_listing_witness :
  Memory.listHistory (Some "u1") (Some (Number_toString 10))
    (fst (Memory.saveHistory 7 "2024-01-01T00:00:00.000Z"
            (fields "https://x" "POST" (VStr "u1") VUndefined) Memory.empty))
  = Json [Memory.historyItem_of 7 "2024-01-01T00:00:00.000Z"
            (fields "https://x" "POST" (VStr "u1") VUndefined)].
Proof.
  refine (proj2 (proj2 (proj2
            (saved_item_heads_listing 7 "2024-01-01T00:00:00.000Z"
               (fields "https://x" "POST" (VStr "u1") VUndefined)
               (Some "u1") 10 Memory.empty _ eq_refl))) eq_refl).
  lia.
Defined.

(** X3. The cap is global: once 100 or more items have been saved for other
    users, GET /api/history lists nothing for a user, whatever the store
    held for that user before and whatever the limit. *)
Theorem saves_of_others_evict_history (q limit : option string) (calls : list SaveCall)
  (st : Memory.Store) :
  100 <= List.length calls ->
  Forall (fun c => owned_by q (saved_item c) = false) calls ->
  Memory.listHistory q limit (saveAll calls st) = Json [].
Proof.
  intros Hlen Hothers.
  assert (Hne : calls <> []) by (intros ->; cbn in Hlen; lia).
  unfold Memory.listHistory. fold (effective_user q).
  rewrite saveAll_history, (capped_run 100 saved_item calls Hne), firstn_app.
  replace (100 - List.length (rev (map saved_item calls))) with 0
    by (rewrite length_rev, length_map; lia).
  rewrite firstn_O, app_nil_r.
  rewrite (filter_none (fun item => strict_eq (Memory.h_user_id item) (effective_user q))).
  - unfold slice0. cbn [List.length]. now rewrite firstn_nil.
  - intros item Hin. apply In_firstn in Hin. apply in_rev in Hin.
    apply in_map_iff in Hin as [c [<- Hc]].
    rewrite Forall_forall in Hothers. exact (Hothers c Hc).
Qed.

Lemma saves_of_others_evict_history_witness :
  Memory.listHistory (Some "u1") None
    (saveAll (calls_of "u2" 100) (saveAll (calls_of "u1" 3) Memory.empty))
  = Json [].
Proof.
  refine (saves_of_others_evict_history (Some "u1") None (calls_of "u2" 100)
            (saveAll (calls_of "u1" 3) Memory.empty) _ _).
  - vm_compute. lia.
  - apply Forall_forall. intros c Hin. unfold calls_of in Hin.
    apply in_map_iff in Hin as [i [<- _]]. reflexivity.
Defined.

(** ** Creating, listing and deleting collections *)

Lemma trimStart_empty_iff (s : string) :
  trimStart s = EmptyString
  <-> Forall (fun c => is_space c = true) (list_ascii_of_string s).
Proof.
  split; [| apply trimStart_spaces].
  induction s as [| c s IH]; intros Hempty; [constructor |].
  cbn [trimStart] in Hempty. cbn [list_ascii_of_string].
  destruct (is_space c) eqn:Hc; [| discriminate].
  constructor; [exact Hc | now apply IH].
Qed.

Lemma trimStart_idem (s : string) : trimStart (trimStart s) = trimStart s.
Proof.
  induction s as [| c s IH]; [reflexivity |].
  cbn [trimStart]. destruct (is_space c) eqn:Hc; [exact IH |].
  cbn [trimStart]. now rewrite Hc.
Qed.

Lemma trimEnd_empty_iff (s : string) :
  trimEnd s = EmptyString <-> trimStart s = EmptyString.
Proof.
  destruct s as [| c s]; [now split |].
  cbn [trimEnd]. destruct (trimStart (String c s)); split; congruence.
Qed.

Lemma trim_empty_iff (s : string) :
  trim s = EmptyString
  <-> Forall (fun c => is_space c = true) (list_ascii_of_string s).
Proof.
  unfold trim. now rewrite trimEnd_empty_iff, trimStart_idem, trimStart_empty_iff.
Qed.

Lemma not_blank_iff (s : string) :
  ~ Forall (fun c => is_space c = true) (list_ascii_of_string s)
  <-> Exists (fun c => is_space c = false) (list_ascii_of_string s).
Proof.
  induction (list_ascii_of_string s) as [| c l IH].
  - split; [intros H; exfalso; apply H; constructor | intros H; inversion H].
  - split.
    + intros Hnot. destruct (is_space c) eqn:Hc; [| now left].
      right. apply IH. intros Hall. apply Hnot. now constructor.
    + intros Hex Hall. inversion Hall as [| ? ? Hc Hrest]; subst.
      inversion Hex as [? ? Hc' | ? ? Hex']; subst; [congruence |].
      now apply IH in Hex'.
Qed.

Lemma truthy_string (s : string) : truthy (VStr s) = false <-> s = EmptyString.
Proof.
  cbn [truthy]. rewrite negb_false_iff. apply String.eqb_eq.
Qed.

Lemma name_missing_proper (v : value) :
  Memory.name_missing v = Returned false <-> proper_name v.
Proof.
  unfold Memory.name_missing, proper_name. split.
  - destruct (truthy v) eqn:Hv; cbn [negb]; [| discriminate].
    destruct v; try discriminate. intros [= Hname].
    exists s. split; [reflexivity |]. apply not_blank_iff. intros Hblank.
    apply trim_empty_iff in Hblank. rewrite Hblank in Hname. discriminate.
  - intros [s [-> Hex]]. apply not_blank_iff in Hex.
    assert (Htrim : trim s <> EmptyString) by (now rewrite trim_empty_iff).
    assert (Hs : truthy (VStr s) = true).
    { destruct (truthy (VStr s)) eqn:Hs; [reflexivity |].
      apply truthy_string in Hs. subst. now contradiction Htrim. }
    rewrite Hs. cbn [negb]. f_equal. apply negb_false_iff.
    destruct (truthy (VStr (trim s))) eqn:Ht; [reflexivity |].
    apply truthy_string in Ht. contradiction.
Qed.

Lemma createCollection_proper (b : Memory.CollectionFields)
  (Hname : proper_name (Memory.cf_name b))
  (now : Z) (iso : string) (st : Memory.Store) :
  Memory.createCollection now iso b st
  = (with_collection (created_collection now iso b) st, Json (created_collection now iso b)).
Proof.
  unfold Memory.createCollection. apply name_missing_proper in Hname.
  now rewrite Hname.
Qed.

(** X4. POST /api/collections answers 200 exactly when the name is a string
    with a character that is not white space, 400 exactly when the name is
    falsy or a string of white space only, and 500 exactly when the name is
    a truthy value that is not a string; only the 200 changes the store, and
    it stores the name as given, not trimmed. *)
Theorem createCollection_outcomes (now : Z) (iso : string) (b : Memory.CollectionFields)
  (st : Memory.Store) :
  let r := Memory.createCollection now iso b st in
  (http_status (snd r) = 200%Z <-> proper_name (Memory.cf_name b))
  /\ (http_status (snd r) = 400%Z
      <-> truthy (Memory.cf_name b) = false
          \/ exists s, Memory.cf_name b = VStr s
                       /\ Forall (fun c => is_space c = true) (list_ascii_of_string s))
  /\ (http_status (snd r) = 500%Z
      <-> truthy (Memory.cf_name b) = true /\ forall s, Memory.cf_name b <> VStr s)
  /\ (http_status (snd r) <> 200%Z -> fst r = st)
  /\ (http_status (snd r) = 200%Z ->
      fst r = with_collection (created_collection now iso b) st
      /\ Memory.c_name (created_collection now iso b) = Memory.cf_name b).
Proof.
  cbv zeta.
  destruct (Memory.name_missing (Memory.cf_name b)) as [[|] | m] eqn:Hmissing.
  - (* 400 *)
    assert (Hreply : Memory.createCollection now iso b st
                     = (st, JsonError 400 "Collection name is required")).
    { unfold Memory.createCollection. now rewrite Hmissing. }
    rewrite Hreply. cbn [fst snd http_status].
    assert (Hnot : ~ proper_name (Memory.cf_name b)).
    { intros Hp. apply name_missing_proper in Hp. congruence. }
    assert (Hblank : truthy (Memory.cf_name b) = false
                     \/ exists s, Memory.cf_name b = VStr s
                          /\ Forall (fun c => is_space c = true) (list_ascii_of_string s)).
    { unfold Memory.name_missing in Hmissing.
      destruct (truthy (Memory.cf_name b)) eqn:Hv; [| now left].
      cbn [negb] in Hmissing. destruct (Memory.cf_name b); try discriminate.
      right. exists s. split; [reflexivity |]. apply trim_empty_iff.
      injection Hmissing as Hm. apply negb_true_iff in Hm. now apply truthy_string. }
    repeat split; try (intros; lia); try tauto.
    + intros [Ht Hns]. destruct Hblank as [Hf | [s [Hs _]]]; [congruence |].
      now apply Hns in Hs.
  - (* 200 *)
    assert (Hp : proper_name (Memory.cf_name b)) by (now apply name_missing_proper).
    rewrite (createCollection_proper b Hp). cbn [fst snd http_status].
    destruct Hp as [s [Hs Hex]].
    repeat split; try (intros; lia); try tauto.
    + now exists s.
    + intros [Hf | [s' [Hs' Hall]]].
      * rewrite Hs in Hf. apply truthy_string in Hf. subst. inversion Hex.
      * rewrite Hs in Hs'. injection Hs' as <-. now apply not_blank_iff in Hex.
    + intros [_ Hns]. now apply Hns in Hs.
  - (* 500 *)
    assert (Hreply : Memory.createCollection now iso b st = (st, JsonError 500 m)).
    { unfold Memory.createCollection. now rewrite Hmissing. }
    rewrite Hreply. cbn [fst snd http_status].
    assert (Hnot : ~ proper_name (Memory.cf_name b)).
    { intros Hp. apply name_missing_proper in Hp. congruence. }
    unfold Memory.name_missing in Hmissing.
    destruct (truthy (Memory.cf_name b)) eqn:Hv; [| discriminate].
    cbn [negb] in Hmissing.
    repeat split; try (intros; lia); try tauto.
    + intros [Hf | [s [Hs _]]]; [congruence |].
      rewrite Hs in Hmissing. discriminate.
    + intros s Hs. rewrite Hs in Hmissing. discriminate.
Qed.

Lemma owns_other (q q' : option string) (v : value) :
  effective_user q' <> effective_user q ->
  strict_eq v (effective_user q) = true ->
  strict_eq v (effective_user q') = false.
Proof.
  intros Hother Hq.
  destruct (effective_user_string q) as [u Hu].
  destruct (effective_user_string q') as [u' Hu'].
  rewrite Hu in *. rewrite Hu' in *.
  apply strict_eq_string in Hq. apply strict_eq_string_false. congruence.
Qed.

(** X5. A collection created with a proper name is the first one
    GET /api/collections lists for the user it was created under (anonymous
    when the body names none), ahead of what was listed before; the listings
    of the other users, the history and the requests are unchanged. *)
Theorem created_collection_heads_listing (now : Z) (iso : string)
  (b : Memory.CollectionFields) (q : option string) (st : Memory.Store) :
  proper_name (Memory.cf_name b) ->
  effective_user q = or_else (Memory.cf_user_id b) (VStr "anonymous") ->
  let st' := fst (Memory.createCollection now iso b st) in
  Memory.listCollections q st'
  = Json (created_collection now iso b
          :: filter (owns_collection q) (Memory.memoryCollections st))
  /\ Memory.listCollections q st
     = Json (filter (owns_collection q) (Memory.memoryCollections st))
  /\ (forall q', effective_user q' <> effective_user q ->
        Memory.listCollections q' st' = Memory.listCollections q' st)
  /\ Memory.memoryHistory st' = Memory.memoryHistory st
  /\ Memory.memoryCollectionRequests st' = Memory.memoryCollectionRequests st.
Proof.
  intros Hname Huser. cbv zeta. rewrite (createCollection_proper b Hname).
  cbn [fst]. unfold Memory.listCollections, with_collection.
  cbn [Memory.memoryCollections Memory.memoryHistory Memory.memoryCollectionRequests filter].
  fold (effective_user q).
  cbn [created_collection Memory.c_user_id]. rewrite <- Huser.
  destruct (effective_user_string q) as [u Hu].
  assert (Hself : strict_eq (effective_user q) (effective_user q) = true)
    by (rewrite Hu; now apply strict_eq_string_iff).
  rewrite Hself. repeat split.
  intros q' Hother. fold (effective_user q').
  now rewrite (owns_other q q' _ Hother Hself).
Qed.

Lemma created_collection_heads_listing_witness :
  Memory.listCollections (Some "u1")
    (fst (Memory.createCollection 9 "2024-01-01T00:00:00.000Z"
            {| Memory.cf_name := VStr " api ";
               Memory.cf_description := VUndefined;
               Memory.cf_user_id := VStr "u1" |} two_users))
  = Json (created_collection 9 "2024-01-01T00:00:00.000Z"
            {| Memory.cf_name := VStr " api ";
               Memory.cf_description := VUndefined;
               Memory.cf_user_id := VStr "u1" |}
          :: filter (owns_collection (Some "u1")) (Memory.memoryCollections two_users)).
Proof.
  refine (proj1 (created_collection_heads_listing 9 "2024-01-01T00:00:00.000Z"
                   {| Memory.cf_name := VStr " api ";
                      Memory.cf_description := VUndefined;
                      Memory.cf_user_id := VStr "u1" |} (Some "u1") two_users _ eq_refl)).
  exists " api ". split; [reflexivity |]. right. now left.
Defined.

(** X6. After DELETE /api/collections/:id the caller is listed the same
    collections as before without those carrying the id; every other user
    is listed exactly what was listed before; the history is untouched; and
    a second deletion changes nothing more. *)
Theorem deleteCollection_then_list (id : string) (q : option string) (st : Memory.Store) :
  let st' := fst (Memory.deleteCollection id q st) in
  Memory.listCollections q st'
  = Json (filter (fun c => negb (Memory.c_id c =? id))
            (filter (owns_collection q) (Memory.memoryCollections st)))
  /\ (forall q', effective_user q' <> effective_user q ->
        Memory.listCollections q' st' = Memory.listCollections q' st)
  /\ Memory.memoryHistory st' = Memory.memoryHistory st
  /\ fst (Memory.deleteCollection id q st') = st'.
Proof.
  cbv zeta. unfold Memory.deleteCollection, Memory.listCollections.
  cbn [fst Memory.memoryCollections Memory.memoryHistory Memory.memoryCollectionRequests].
  fold (effective_user q). repeat split.
  - f_equal. rewrite !filter_filter. apply filter_ext. intros c.
    unfold owns_collection.
    destruct (Memory.c_id c =? id), (strict_eq (Memory.c_user_id c) (effective_user q));
      reflexivity.
  - intros q' Hother. fold (effective_user q'). f_equal.
    rewrite filter_filter. apply filter_ext. intros c.
    destruct (strict_eq (Memory.c_user_id c) (effective_user q)) eqn:Hq.
    + rewrite (owns_other q q' _ Hother Hq). now rewrite andb_false_r.
    + now rewrite andb_false_r.
  - now rewrite !filter_idem.
Qed.

(** ** DELETE /api/clear and GET /api/stats *)

(** X7. After DELETE /api/clear for a non-empty user id, that user is
    listed no history and no collection, every other user is listed exactly
    what was listed before, and the counts of the reply are the sizes of
    what remains for the others. *)
Theorem clear_then_list (u : string) (st : Memory.Store) :
  u <> EmptyString ->
  let st' := fst (Memory.clear (Some u) st) in
  (forall limit, Memory.listHistory (Some u) limit st' = Json [])
  /\ Memory.listCollections (Some u) st' = Json []
  /\ (forall q' limit, effective_user q' <> VStr u ->
        Memory.listHistory q' limit st' = Memory.listHistory q' limit st
        /\ Memory.listCollections q' st' = Memory.listCollections q' st)
  /\ snd (Memory.clear (Some u) st)
     = Json {| Memory.cl_message := "User data cleared";
               Memory.cl_historyCount :=
                 List.length (filter (fun h => negb (owned_by (Some u) h))
                                (Memory.memoryHistory st));
               Memory.cl_collectionsCount :=
                 List.length (filter (fun c => negb (owns_collection (Some u) c))
                                (Memory.memoryCollections st)) |}.
Proof.
  intros Hu. cbv zeta.
  assert (Ht : truthy (qvalue (Some u)) = true).
  { cbn. apply negb_true_iff. now apply String.eqb_neq. }
  pose proof (effective_user_given u Ht) as Heff.
  unfold Memory.clear, Memory.listHistory, Memory.listCollections.
  rewrite Ht. cbn [fst snd Memory.memoryHistory Memory.memoryCollections].
  fold (effective_user (Some u)). rewrite Heff. cbn [qvalue].
  repeat split.
  - intros limit. rewrite filter_filter, filter_none.
    + unfold slice0. cbn [List.length]. now rewrite firstn_nil.
    + intros h _. now destruct (strict_eq (Memory.h_user_id h) (VStr u)).
  - rewrite filter_filter, filter_none; [reflexivity |].
    intros c _. now destruct (strict_eq (Memory.c_user_id c) (VStr u)).
  - fold (effective_user q'). f_equal. f_equal.
    rewrite filter_filter. apply filter_ext. intros h.
    destruct (strict_eq (Memory.h_user_id h) (VStr u)) eqn:Hq; [| reflexivity].
    rewrite <- Heff in Hq, H.
    now rewrite (owns_other (Some u) q' _ H Hq).
  - fold (effective_user q'). f_equal.
    rewrite filter_filter. apply filter_ext. intros c.
    destruct (strict_eq (Memory.c_user_id c) (VStr u)) eqn:Hq; [| reflexivity].
    rewrite <- Heff in Hq, H.
    now rewrite (owns_other (Some u) q' _ H Hq).
  - unfold owned_by, owns_collection. now rewrite Heff.
Qed.

Lemma clear_then_list_witness :
  Memory.listCollections (Some "u1") (fst (Memory.clear (Some "u1") two_users)) = Json []
  /\ Memory.listCollections (Some "u2") (fst (Memory.clear (Some "u1") two_users))
     = Memory.listCollections (Some "u2") two_users.
Proof.
  assert (Hu : "u1" <> EmptyString) by discriminate.
  pose proof (clear_then_list "u1" two_users Hu) as (_ & Hown & Hothers & _).
  split; [exact Hown |].
  apply (Hothers (Some "u2") None). discriminate.
Defined.

(** X8. DELETE /api/clear with no user id, or with the empty one, empties
    the three arrays for every user: afterwards every listing is empty and
    GET /api/stats reports zero everywhere. *)
Theorem clear_without_user_wipes (user_id : option string) (st : Memory.Store) :
  user_id = None \/ user_id = Some EmptyString ->
  fst (Memory.clear user_id st) = Memory.empty
  /\ snd (Memory.clear user_id st)
     = Json {| Memory.cl_message := "All data cleared";
               Memory.cl_historyCount := 0;
               Memory.cl_collectionsCount := 0 |}
  /\ (forall q limit id,
        Memory.listHistory q limit (fst (Memory.clear user_id st)) = Json []
        /\ Memory.listCollections q (fst (Memory.clear user_id st)) = Json []
        /\ Memory.listCollectionRequests id (fst (Memory.clear user_id st)) = Json [])
  /\ (forall q s, payload (Memory.stats q (fst (Memory.clear user_id st))) = Some s ->
        Memory.historyCount s = 0 /\ Memory.collectionsCount s = 0
        /\ Memory.requestsCount s = 0).
Proof.
  intros Hnone.
  assert (Hclear : Memory.clear user_id st
                   = (Memory.empty,
                      Json {| Memory.cl_message := "All data cleared";
                              Memory.cl_historyCount := 0;
                              Memory.cl_collectionsCount := 0 |})).
  { destruct Hnone as [-> | ->]; reflexivity. }
  rewrite Hclear. cbn [fst snd]. repeat split.
  - unfold Memory.listHistory, slice0. cbn. now rewrite firstn_nil.
  - unfold Memory.stats in H.
    destruct (truthy (qvalue q)); cbn in H; injection H as <-; reflexivity.
  - unfold Memory.stats in H.
    destruct (truthy (qvalue q)); cbn in H; injection H as <-; reflexivity.
  - unfold Memory.stats in H.
    destruct (truthy (qvalue q)); cbn in H; injection H as <-; reflexivity.
Qed.

Lemma clear_without_user_wipes_witness :
  fst (Memory.clear (Some EmptyString) two_users) = Memory.empty.
Proof.
  exact (proj1 (clear_without_user_wipes (Some EmptyString) two_users
                  (or_intror eq_refl))).
Defined.

(** X9. GET /api/stats for a non-empty user id counts what
    GET /api/collections lists for that user and what GET /api/history
    lists for that user under a limit that is large enough, but its
    requestsCount is the number of requests of all users; with no user id it
    reports the totals over all users. *)
Theorem stats_counts (q : option string) (st : Memory.Store) :
  exists s,
    Memory.stats q st = Json s
    /\ Memory.storageType s = "memory"
    /\ Memory.requestsCount s = List.length (Memory.memoryCollectionRequests st)
    /\ (truthy (qvalue q) = true ->
        Memory.listCollections q st
        = Json (filter (owns_collection q) (Memory.memoryCollections st))
        /\ Memory.collectionsCount s
           = List.length (filter (owns_collection q) (Memory.memoryCollections st))
        /\ forall n, (Z.of_nat (Memory.historyCount s) <= n)%Z -> (0 < n)%Z ->
             exists items,
               Memory.listHistory q (Some (Number_toString n)) st = Json items
               /\ List.length items = Memory.historyCount s)
    /\ (truthy (qvalue q) = false ->
        Memory.historyCount s = List.length (Memory.memoryHistory st)
        /\ Memory.collectionsCount s = List.length (Memory.memoryCollections st)).
Proof.
  unfold Memory.stats. destruct (truthy (qvalue q)) eqn:Hq.
  - eexists. split; [reflexivity |].
    cbn [Memory.storageType Memory.requestsCount Memory.collectionsCount
         Memory.historyCount].
    assert (Heff : effective_user q = qvalue q)
      by (unfold effective_user, or_else; now rewrite Hq).
    split; [reflexivity | split; [reflexivity | split; [| discriminate]]].
    intros _. split; [| split].
    + unfold Memory.listCollections, owns_collection.
      fold (effective_user q). reflexivity.
    + unfold owns_collection. now rewrite Heff.
    + intros n Hn Hpos. eexists. split; [apply (listHistory_unfold q n st Hpos) |].
      unfold owned_by. rewrite Heff. f_equal. apply firstn_all2. lia.
  - eexists. split; [reflexivity |]. repeat split; discriminate.
Qed.

(** ** Every store the server can reach *)

Lemma well_formed_empty : well_formed Memory.empty.
Proof. split; cbn; [lia | constructor ..]. Qed.

Lemma or_else_anonymous_truthy (v : value) :
  truthy (or_else v (VStr "anonymous")) = true.
Proof. unfold or_else. destruct (truthy v) eqn:Hv; [exact Hv | reflexivity]. Qed.

Lemma step_well_formed `{Platform} (op : Op) (st : Memory.Store) :
  well_formed st -> well_formed (step st op).
Proof.
  intros [Hcap Hhu Hcu Hcn]. destruct op as [now iso b | id q | now iso b | id q
                                            | now iso id b | q]; cbn [step].
  - (* save *)
    split; cbn [Memory.saveHistory fst Memory.memoryHistory Memory.memoryCollections];
      [| | exact Hcu | exact Hcn];
      change (slice0 ?l 100) with (slice0 l (Z.of_nat 100)); rewrite slice0_firstn.
    + apply firstn_le_length.
    + apply Forall_firstn. constructor; [| exact Hhu].
      cbn [Memory.historyItem_of Memory.h_user_id]. apply or_else_anonymous_truthy.
  - (* delete history *)
    split; cbn [Memory.deleteHistory fst Memory.memoryHistory Memory.memoryCollections];
      [| now apply Forall_filter | exact Hcu | exact Hcn].
    pose proof (filter_length_le
                  (fun item => negb ((Memory.h_id item =? id)
                                     && strict_eq (Memory.h_user_id item)
                                          (or_else (qvalue q) (VStr "anonymous"))))
                  (Memory.memoryHistory st)). lia.
  - (* create collection *)
    unfold Memory.createCollection.
    destruct (Memory.name_missing (Memory.cf_name b)) as [[|] | m] eqn:Hmissing;
      cbn [fst]; try (now split).
    split; cbn [Memory.memoryHistory Memory.memoryCollections]; [exact Hcap | exact Hhu | |].
    + constructor; [| exact Hcu]. cbn [Memory.c_user_id]. apply or_else_anonymous_truthy.
    + constructor; [| exact Hcn]. cbn [Memory.c_name]. now apply name_missing_proper.
  - (* delete collection *)
    split; cbn [Memory.deleteCollection fst Memory.memoryHistory Memory.memoryCollections];
      [exact Hcap | exact Hhu | now apply Forall_filter | now apply Forall_filter].
  - (* add request *)
    unfold Memory.addCollectionRequest. destruct (Memory.request_name b); now split.
  - (* clear *)
    unfold Memory.clear. destruct (truthy (qvalue q)); cbn [fst]; [| apply well_formed_empty].
    split; cbn [Memory.memoryHistory Memory.memoryCollections];
      [| now apply Forall_filter ..].
    pose proof (filter_length_le
                  (fun item => negb (strict_eq (Memory.h_user_id item) (qvalue q)))
                  (Memory.memoryHistory st)). lia.
Qed.

(** X10. Whatever sequence of saves, deletions, creations, additions and
    clears the full server serves from its empty start, the history never
    holds more than 100 items, every stored history item and collection
    carries a truthy user id, and every stored collection has a name that
    is a string with a character that is not white space; so no listing of
    the history is longer than 100, whatever the limit asked for. *)
Theorem reachable_store_well_formed `{Platform} (ops : list Op) :
  well_formed (run ops Memory.empty)
  /\ forall q limit items,
       Memory.listHistory q limit (run ops Memory.empty) = Json items ->
       List.length items <= 100.
Proof.
  assert (Hrun : forall st, well_formed st -> well_formed (run ops st)).
  { induction ops as [| op ops IH]; intros st Hst; [exact Hst |].
    apply IH. now apply step_well_formed. }
  pose proof (Hrun Memory.empty well_formed_empty) as Hwf.
  split; [exact Hwf |].
  intros q limit items [= <-]. unfold slice0.
  rewrite length_firstn.
  etransitivity; [apply Nat.le_min_r |].
  etransitivity; [apply filter_length_le | apply (wf_cap _ Hwf)].
Qed.

(** ** Adding a request without a name *)



(** ** A negative limit *)

Lemma parseInt_negative_numeral (d : Decimal.uint) :
  d <> Decimal.Nil ->
  parseInt (String "-" (NilEmpty.string_of_uint d))
  = match parse_digits 10 None (NilEmpty.string_of_uint d) with
    | Some n => Some (-1 * n)%Z
    | None => None
    end.
Proof.
  destruct d as [| d | d | d | d | d | d | d | d | d | d]; intros Hne;
    [congruence | ..]; destruct d; reflexivity.
Qed.

Lemma parseInt_Number_toString_negative (p : positive) :
  parseInt (Number_toString (Z.neg p)) = Some (Z.neg p).
Proof.
  unfold Number_toString. cbn [Z.to_int NilZero.string_of_int].
  assert (Hne : Pos.to_uint p <> Decimal.Nil).
  { intros Hnil. pose proof (DecimalPos.Unsigned.of_to p) as Hback.
    rewrite Hnil in Hback. discriminate. }
  rewrite (string_of_numeral _ Hne), (parseInt_negative_numeral _ Hne),
    (parse_digits_numeral_start _ Hne), <- horner_of_uint,
    DecimalPos.Unsigned.of_to.
  f_equal; lia.
Qed.

(** X12. A negative limit does not bound the listing: GET /api/history with
    limit -n lists the items of the user without the n oldest ones. *)
Theorem listHistory_negative_limit (q : option string) (n : Z) (st : Memory.Store) :
  (0 < n)%Z ->
  Memory.listHistory q (Some (Number_toString (- n))) st
  = Json (firstn (List.length (filter (owned_by q) (Memory.memoryHistory st)) - Z.to_nat n)
            (filter (owned_by q) (Memory.memoryHistory st))).
Proof.
  intros Hpos. destruct n as [| p | p]; try lia.
  unfold Memory.listHistory, Memory.limit_of. cbn [qvalue ToString Z.opp].
  rewrite parseInt_Number_toString_negative. cbn [Z.eqb].
  fold (effective_user q). fold (owned_by q).
  unfold slice0. cbn [Z.ltb Z.compare].
  f_equal. f_equal. lia.
Qed.

Lemma listHistory_negative_limit_witness :
  Memory.listHistory (Some "u1") (Some (Number_toString (- 1)))
    (saveAll (calls_of "u1" 3) Memory.empty)
  = Json (firstn (List.length (filter (owned_by (Some "u1"))
                                 (Memory.memoryHistory (saveAll (calls_of "u1" 3) Memory.empty)))
                  - Z.to_nat 1)
            (filter (owned_by (Some "u1"))
               (Memory.memoryHistory (saveAll (calls_of "u1" 3) Memory.empty)))).
Proof.
  refine (listHistory_negative_limit (Some "u1") 1 (saveAll (calls_of "u1" 3) Memory.empty) _).
  lia.
Defined.

Example listHistory_limit_minus_one :
  exists newest middle,
    Memory.listHistory (Some "u1") (Some "-1") (saveAll (calls_of "u1" 3) Memory.empty)
    = Json [newest; middle]
    /\ Memory.h_id newest = "3" /\ Memory.h_id middle = "2".
Proof. do 2 eexists. repeat split. Qed.

(** ** The headers of the outbound request *)

Lemma obj_get_set_same (k : string) (v : value) (o : list (string * value)) :
  obj_get k (obj_set k v o) = Some v.
Proof.
  induction o as [| [k' v'] o IH]; cbn [obj_set obj_get].
  - now rewrite String.eqb_refl.
  - destruct (String.eqb_spec k' k) as [-> | Hne]; cbn [obj_get].
    + now rewrite String.eqb_refl.
    + destruct (String.eqb_spec k' k); [congruence | exact IH].
Qed.

Lemma obj_get_set_other (k k' : string) (v : value) (o : list (string * value)) :
  k' <> k -> obj_get k' (obj_set k v o) = obj_get k' o.
Proof.
  intros Hne. induction o as [| [k0 v0] o IH]; cbn [obj_set obj_get].
  - destruct (String.eqb_spec k k'); [congruence | reflexivity].
  - destruct (String.eqb_spec k0 k) as [-> | Hk0]; cbn [obj_get].
    + destruct (String.eqb_spec k k'); [congruence | reflexivity].
    + now rewrite IH.
Qed.

Lemma obj_set_keys (k k' : string) (v : value) (o : list (string * value)) :
  In k' (map fst (obj_set k v o)) <-> k' = k \/ In k' (map fst o).
Proof.
  induction o as [| [k0 v0] o IH]; cbn [obj_set map fst In].
  - intuition.
  - destruct (String.eqb_spec k0 k) as [-> | Hk0]; cbn [map fst In].
    + intuition.
    + rewrite IH. intuition.
Qed.

Lemma obj_set_NoDup (k : string) (v : value) (o : list (string * value)) :
  NoDup (map fst o) -> NoDup (map fst (obj_set k v o)).
Proof.
  induction o as [| [k0 v0] o IH]; cbn [obj_set map fst]; intros Hnd.
  - constructor; [intros [] | constructor].
  - inversion Hnd as [| ? ? Hnotin Hrest]; subst.
    destruct (String.eqb_spec k0 k) as [-> | Hk0]; cbn [map fst].
    + now constructor.
    + constructor; [| now apply IH].
      rewrite obj_set_keys. intros [-> | Hin]; [congruence | contradiction].
Qed.

Lemma obj_get_keys (k : string) (o : list (string * value)) :
  obj_get k o <> None <-> In k (map fst o).
Proof.
  induction o as [| [k0 v0] o IH]; cbn [obj_get map fst In]; [tauto |].
  destruct (String.eqb_spec k0 k) as [-> | Hne].
  - split; [now left | discriminate].
  - rewrite IH. intuition.
Qed.

Lemma spread_NoDup (extra base : list (string * value)) :
  NoDup (map fst base) -> NoDup (map fst (spread base extra)).
Proof.
  unfold spread. revert base.
  induction extra as [| [k v] extra IH]; intros base Hnd; [exact Hnd |].
  cbn [fold_left fst snd]. apply IH. now apply obj_set_NoDup.
Qed.

Lemma spread_keys (k : string) (extra base : list (string * value)) :
  In k (map fst (spread base extra)) <-> In k (map fst base) \/ In k (map fst extra).
Proof.
  unfold spread. revert base.
  induction extra as [| [k0 v0] extra IH]; intros base; cbn [fold_left fst snd map In].
  - tauto.
  - rewrite IH, obj_set_keys. intuition.
Qed.

Lemma spread_get_base (k : string) (extra base : list (string * value)) :
  ~ In k (map fst extra) -> obj_get k (spread base extra) = obj_get k base.
Proof.
  unfold spread. revert base.
  induction extra as [| [k0 v0] extra IH]; intros base Hnotin; [reflexivity |].
  cbn [fold_left fst snd map In] in *.
  rewrite IH by tauto. apply obj_get_set_other. intros ->. tauto.
Qed.

Lemma spread_get_extra (k : string) (v : value) (extra base : list (string * value)) :
  NoDup (map fst extra) -> In (k, v) extra -> obj_get k (spread base extra) = Some v.
Proof.
  revert base.
  induction extra as [| [k0 v0] extra IH]; intros base Hnd Hin; [destruct Hin |].
  cbn [map fst] in Hnd. inversion Hnd as [| ? ? Hnotin Hrest]; subst.
  destruct Hin as [[= -> ->] | Hin].
  - change (spread base ((k, v) :: extra)) with (spread (obj_set k v base) extra).
    rewrite spread_get_base by exact Hnotin. apply obj_get_set_same.
  - change (spread base ((k0, v0) :: extra)) with (spread (obj_set k0 v0 base) extra).
    now apply IH.
Qed.

(** X13. The headers handed to [fetch] hold every header of the caller with
    the caller's value and no key twice; Content-Type is application/json
    unless the caller gives a header under exactly that key, and a key in
    another case, such as content-type, does not replace it but stands
    beside it. *)
Theorem merged_headers (timeout : option Z) (b : Relay.ProxyBody) :
  NoDup (map fst (own_entries (Relay.headers b))) ->
  let h := fo_headers (Relay.fetchOptions timeout b) in
  NoDup (map fst h)
  /\ (forall k v, In (k, v) (own_entries (Relay.headers b)) -> obj_get k h = Some v)
  /\ (~ In "Content-Type" (map fst (own_entries (Relay.headers b))) ->
      obj_get "Content-Type" h = Some (VStr "application/json"))
  /\ (forall k, obj_get k h <> None
                <-> k = "Content-Type" \/ In k (map fst (own_entries (Relay.headers b))))
  /\ (forall v, In ("content-type", v) (own_entries (Relay.headers b)) ->
        ~ In "Content-Type" (map fst (own_entries (Relay.headers b))) ->
        obj_get "content-type" h = Some v
        /\ obj_get "Content-Type" h = Some (VStr "application/json")).
Proof.
  intros Hnd. cbv zeta. unfold Relay.fetchOptions. cbn [fo_headers].
  assert (Hdefault : ~ In "Content-Type" (map fst (own_entries (Relay.headers b))) ->
                     obj_get "Content-Type"
                       (spread [("Content-Type", VStr "application/json")]
                          (own_entries (Relay.headers b)))
                     = Some (VStr "application/json")).
  { intros Hnotin. now rewrite spread_get_base. }
  split; [| split; [| split; [| split]]].
  - apply spread_NoDup. cbn. constructor; [intros [] | constructor].
  - intros k v Hin. now apply spread_get_extra.
  - exact Hdefault.
  - intros k. rewrite obj_get_keys, spread_keys. cbn [map fst In]. intuition.
  - intros v Hin Hnotin. split; [now apply spread_get_extra | now apply Hdefault].
Qed.

Lemma merged_headers_witness :
  obj_get "Content-Type"
    (fo_headers (Relay.fetchOptions None
       {| Relay.url := VStr "https://example.com/";
          Relay.method := VStr "POST";
          Relay.headers := VObj [("Content-Type", VStr "text/plain"); ("X-Id", VStr "7")];
          Relay.body := VUndefined;
          Relay.params := VUndefined |}))
  = Some (VStr "text/plain").
Proof.
  refine (proj1 (proj2 (merged_headers None
            {| Relay.url := VStr "https://example.com/";
               Relay.method := VStr "POST";
               Relay.headers := VObj [("Content-Type", VStr "text/plain"); ("X-Id", VStr "7")];
               Relay.body := VUndefined;
               Relay.params := VUndefined |} _)) "Content-Type" (VStr "text/plain") _).
  - cbn. repeat constructor; cbn; intuition discriminate.
  - now left.
Defined.

(** ** The replies of the relay *)

(** X14. The full server answers 400 exactly when the URL is falsy or does
    not parse, with the message that tells which; the simplified variant
    answers 400 exactly when the URL is falsy, and hands an unparsable URL
    to [fetch]. *)
Theorem proxy_rejects_iff `{Platform} (startTime endTime : Z) (b : Relay.ProxyBody) :
  (Relay.reply_code (Relay.proxy startTime endTime b) = 400%Z
   <-> truthy (Relay.url b) = false
       \/ exists m, new_URL (ToString (Relay.url b)) = Thrown m)
  /\ (truthy (Relay.url b) = false ->
      Relay.proxy startTime endTime b = Relay.Rejected 400 "URL is required")
  /\ (truthy (Relay.url b) = true ->
      (exists m, new_URL (ToString (Relay.url b)) = Thrown m) ->
      Relay.proxy startTime endTime b = Relay.Rejected 400 "Invalid URL format")
  /\ (Relay.reply_code (Simplified.proxy startTime endTime b) = 400%Z
      <-> truthy (Relay.url b) = false).
Proof.
  unfold Relay.proxy, Simplified.proxy.
  destruct (truthy (Relay.url b)) eqn:Hurl; cbn [negb].
  - destruct (new_URL (ToString (Relay.url b))) as [u | m] eqn:Hparse.
    + destruct (Relay.relay (Some 30000%Z) startTime endTime b);
        destruct (Relay.relay None startTime endTime b); cbn [Relay.reply_code Relay.failure];
        repeat split; try discriminate; try lia;
        try (intros [? | [m Hm]]; discriminate);
        try (intros _ [m Hm]; discriminate).
    + destruct (Relay.relay None startTime endTime b); cbn [Relay.reply_code Relay.failure];
        repeat split; try discriminate; try lia; eauto.
  - destruct (new_URL (ToString (Relay.url b))); cbn [Relay.reply_code];
      repeat split; try discriminate; auto.
Qed.

Lemma decode_text (response : Response) :
  declares_json response = false ->
  Relay.decode response = bind (text response) (fun t => Returned (VStr t)).
Proof.
  unfold declares_json, Relay.decode.
  destruct (Relay.headers_get "content-type" (res_headers response)) as [ct |];
    [| reflexivity].
  now intros ->.
Qed.

Lemma decode_json (response : Response) :
  declares_json response = true ->
  Relay.decode response
  = match json response with
    | Returned v => Returned v
    | Thrown _ => bind (text_after_json response) (fun t => Returned (VStr t))
    end.
Proof.
  unfold declares_json, Relay.decode.
  destruct (Relay.headers_get "content-type" (res_headers response)) as [ct |];
    [| discriminate].
  now intros ->.
Qed.

Lemma length_append (s t : string) :
  String.length (s ++ t) = String.length s + String.length t.
Proof. induction s as [| c s IH]; [reflexivity |]. cbn. now rewrite IH. Qed.

Lemma json_escape_length (c : ascii) : 1 <= String.length (json_escape c).
Proof.
  unfold json_escape.
  repeat match goal with |- context [if ?t then _ else _] => destruct t end;
    cbn; lia.
Qed.

Lemma json_quote_length (s : string) :
  String.length s + 2 <= String.length (json_quote s).
Proof.
  unfold json_quote. cbn [String.length]. rewrite length_append. cbn [str1 String.length].
  enough (String.length s <= String.length (json_escape_all s)) by lia.
  induction s as [| c s IH]; [reflexivity |].
  cbn [json_escape_all String.length]. rewrite length_append.
  pose proof (json_escape_length c). lia.
Qed.

(** The reply for a response whose body has been decoded. *)
Lemma proxy_decoded `{Platform} (startTime endTime : Z) (b : Relay.ProxyBody)
  (u : URL) (r : Response) (v : value) :
  truthy (Relay.url b) = true ->
  new_URL (ToString (Relay.url b)) = Returned u ->
  fetch (Relay.finalUrl b) (Relay.fetchOptions (Some 30000%Z) b) = Returned r ->
  Relay.decode r = Returned v ->
  v <> VUndefined ->
  Relay.proxy startTime endTime b
  = Relay.Relayed {| Relay.rr_status := res_status r;
                     Relay.rr_statusText := res_statusText r;
                     Relay.rr_headers := res_headers r;
                     Relay.rr_body := v;
                     Relay.rr_time := endTime - startTime;
                     Relay.rr_size := Z.of_nat (String.length (json_text v)) |}.
Proof.
  intros Hurl Hparse Hfetch Hdecode Hdefined.
  unfold Relay.proxy, Relay.relay. rewrite Hurl, Hparse, Hfetch. cbn [negb bind].
  rewrite Hdecode. cbn [bind]. unfold Relay.size_of, JSON_stringify.
  destruct v; try contradiction; reflexivity.
Qed.

(** X15. A response that does not declare JSON is relayed with its status,
    status text and headers, its text as the body, the difference of the two
    clock readings as the time, and as the size the length of the text as a
    JSON string, which exceeds the length of the text by 2 at least. *)
Theorem text_response_relayed `{Platform} (startTime endTime : Z) (b : Relay.ProxyBody)
  (u : URL) (r : Response) (t : string) :
  truthy (Relay.url b) = true ->
  new_URL (ToString (Relay.url b)) = Returned u ->
  fetch (Relay.finalUrl b) (Relay.fetchOptions (Some 30000%Z) b) = Returned r ->
  declares_json r = false ->
  text r = Returned t ->
  Relay.proxy startTime endTime b
  = Relay.Relayed {| Relay.rr_status := res_status r;
                     Relay.rr_statusText := res_statusText r;
                     Relay.rr_headers := res_headers r;
                     Relay.rr_body := VStr t;
                     Relay.rr_time := endTime - startTime;
                     Relay.rr_size := Z.of_nat (String.length (json_quote t)) |}
  /\ (Z.of_nat (String.length t) + 2 <= Z.of_nat (String.length (json_quote t)))%Z.
Proof.
  intros Hurl Hparse Hfetch Hplain Htext. split.
  - apply (proxy_decoded startTime endTime b u r (VStr t) Hurl Hparse Hfetch);
      [| discriminate].
    rewrite (decode_text r Hplain), Htext. reflexivity.
  - pose proof (json_quote_length t). lia.
Qed.

(** X16. A response that declares JSON and whose body parses to a value
    whose numbers are integers of magnitude at most 2^53 is relayed with the
    parsed value as the body and the length of its JSON text as the size. *)
Theorem json_response_relayed `{Platform} (startTime endTime : Z) (b : Relay.ProxyBody)
  (u : URL) (r : Response) (v : value) :
  truthy (Relay.url b) = true ->
  new_URL (ToString (Relay.url b)) = Returned u ->
  fetch (Relay.finalUrl b) (Relay.fetchOptions (Some 30000%Z) b) = Returned r ->
  declares_json r = true ->
  json r = Returned v ->
  v <> VUndefined ->
  safe_numbers v = true ->
  Relay.proxy startTime endTime b
  = Relay.Relayed {| Relay.rr_status := res_status r;
                     Relay.rr_statusText := res_statusText r;
                     Relay.rr_headers := res_headers r;
                     Relay.rr_body := v;
                     Relay.rr_time := endTime - startTime;
                     Relay.rr_size := Z.of_nat (String.length (json_text v)) |}.
Proof.
  intros Hurl Hparse Hfetch Hjson Hbody Hdefined _.
  apply (proxy_decoded startTime endTime b u r v Hurl Hparse Hfetch); [| exact Hdefined].
  rewrite (decode_json r Hjson), Hbody. reflexivity.
Qed.

(** X17. When a response declares JSON and its body does not parse, the
    reply rests on the second read of the body: its text is relayed as the
    body when that read succeeds, and when it throws the reply is the 500 of
    the catch branch with the message of that second error. *)
Theorem json_parse_failure_reply `{Platform} (startTime endTime : Z) (b : Relay.ProxyBody)
  (u : URL) (r : Response) (m : string) :
  truthy (Relay.url b) = true ->
  new_URL (ToString (Relay.url b)) = Returned u ->
  fetch (Relay.finalUrl b) (Relay.fetchOptions (Some 30000%Z) b) = Returned r ->
  declares_json r = true ->
  json r = Thrown m ->
  match text_after_json r with
  | Returned t =>
      Relay.proxy startTime endTime b
      = Relay.Relayed {| Relay.rr_status := res_status r;
                         Relay.rr_statusText := res_statusText r;
                         Relay.rr_headers := res_headers r;
                         Relay.rr_body := VStr t;
                         Relay.rr_time := endTime - startTime;
                         Relay.rr_size := Z.of_nat (String.length (json_quote t)) |}
  | Thrown m' =>
      Relay.proxy startTime endTime b
      = Relay.Failed 500 {| Relay.f_error := m';
                            Relay.f_time := 0;
                            Relay.f_size := 0;
                            Relay.f_status := 500 |}
  end.
Proof.
  intros Hurl Hparse Hfetch Hjson Hbody.
  destruct (text_after_json r) as [t | m'] eqn:Hagain.
  - apply (proxy_decoded startTime endTime b u r (VStr t) Hurl Hparse Hfetch);
      [| discriminate].
    rewrite (decode_json r Hjson), Hbody, Hagain. reflexivity.
  - unfold Relay.proxy, Relay.relay. rewrite Hurl, Hparse, Hfetch. cbn [negb bind].
    rewrite (decode_json r Hjson), Hbody, Hagain. reflexivity.
Qed.

Lemma text_response_relayed_witness :
  @Relay.proxy (serving html_response) 10 25 probe
  = Relay.Relayed {| Relay.rr_status := 200;
                     Relay.rr_statusText := "OK";
                     Relay.rr_headers := [("content-type", "text/html")];
                     Relay.rr_body := VStr "<p>hi</p>";
                     Relay.rr_time := 15;
                     Relay.rr_size := 11 |}.
Proof.
  exact (proj1 (@text_response_relayed (serving html_response) 10 25 probe
                  {| pathname := "/" |} html_response "<p>hi</p>"
                  eq_refl eq_refl eq_refl eq_refl eq_refl)).
Defined.

Lemma json_response_relayed_witness :
  @Relay.proxy (serving json_response) 10 25 probe
  = Relay.Relayed {| Relay.rr_status := 201;
                     Relay.rr_statusText := "Created";
                     Relay.rr_headers := [("content-type", "application/json; charset=utf-8")];
                     Relay.rr_body := VObj [("ok", VBool true)];
                     Relay.rr_time := 15;
                     Relay.rr_size := 11 |}.
Proof.
  refine (@json_response_relayed (serving json_response) 10 25 probe
            {| pathname := "/" |} json_response (VObj [("ok", VBool true)])
            eq_refl eq_refl eq_refl eq_refl eq_refl _ eq_refl).
  discriminate.
Defined.

Lemma json_parse_failure_reply_witness :
  @Relay.proxy (serving broken_json_response) 10 25 probe
  = Relay.Failed 500 {| Relay.f_error := "body used already";
                        Relay.f_time := 0;
                        Relay.f_size := 0;
                        Relay.f_status := 500 |}.
Proof.
  exact (@json_parse_failure_reply (serving broken_json_response) 10 25 probe
           {| pathname := "/" |} broken_json_response "invalid json response body"
           eq_refl eq_refl eq_refl eq_refl eq_refl).
Defined.

(** ** The final URL without pairs *)

(** X18. With [params] falsy or without entries the final URL is the URL
    itself; with entries that are all skipped (an empty key, or a falsy
    value such as the empty string, null, false or 0) the final URL is the
    URL followed by a bare question mark. *)
Theorem finalUrl_without_pairs (b : Relay.ProxyBody) :
  Forall (fun kv => truthy (VStr (fst kv)) && truthy (snd kv) = false)
         (own_entries (Relay.params b)) ->
  (truthy (Relay.params b) = false \/ own_entries (Relay.params b) = [] ->
   Relay.finalUrl b = ToString (Relay.url b))
  /\ (truthy (Relay.params b) = true -> own_entries (Relay.params b) <> [] ->
      Relay.finalUrl b = ToString (Relay.url b) ++ "?").
Proof.
  intros Hskipped. unfold Relay.finalUrl. split.
  - intros [-> | ->]; [reflexivity |]. cbn. now rewrite andb_false_r.
  - intros -> Hne. cbn [andb].
    destruct (own_entries (Relay.params b)) as [| e es] eqn:Hes; [congruence |].
    cbn [List.length Nat.ltb Nat.leb]. unfold Relay.appended. rewrite Hes.
    rewrite filter_none; [reflexivity |].
    intros kv Hin. rewrite Forall_forall in Hskipped. exact (Hskipped kv Hin).
Qed.

Lemma finalUrl_without_pairs_witness :
  Relay.finalUrl (proxy_body (VStr "https://example.com/get") (VStr "GET") VUndefined
                    (VObj [("b", VStr EmptyString); (EmptyString, VStr "x"); ("n", VNum 0)]))
  = "https://example.com/get?".
Proof.
  refine (proj2 (finalUrl_without_pairs
                   (proxy_body (VStr "https://example.com/get") (VStr "GET") VUndefined
                      (VObj [("b", VStr EmptyString); (EmptyString, VStr "x"); ("n", VNum 0)]))
                   _) eq_refl _).
  - repeat constructor.
  - discriminate.
Defined.

(** ** Witnesses of the facts about the body and about failures *)

Lemma body_attached_method_given_witness :
  fo_method (Relay.fetchOptions None
               (proxy_body (VStr "https://example.com/items") (VStr "POST")
                  (VObj [("a", VNum 1)]) VUndefined))
  = VStr "POST"
  /\ fo_body (Relay.fetchOptions None
                (proxy_body (VStr "https://example.com/items") (VStr "POST")
                   (VObj [("a", VNum 1)]) VUndefined))
     <> None.
Proof.
  destruct (body_attached_method_given None
              (proxy_body (VStr "https://example.com/items") (VStr "POST")
                 (VObj [("a", VNum 1)]) VUndefined) eq_refl) as [Hmethod Hbody].
  split; [exact Hmethod |]. apply Hbody.
  rewrite Hmethod. repeat split; discriminate.
Defined.

Lemma network_failure_reply_simplified_witness :
  @Simplified.proxy refusing 10 20
     (proxy_body (VStr "not a url") (VStr "GET") VUndefined VUndefined)
  = Relay.failure "connect ECONNREFUSED 127.0.0.1:9".
Proof.
  exact (@network_failure_reply_simplified refusing 10 20
           (proxy_body (VStr "not a url") (VStr "GET") VUndefined VUndefined)
           "connect ECONNREFUSED 127.0.0.1:9" eq_refl eq_refl).
Defined.

Lemma simplified_add_request_not_found_witness :
  Simplified.addCollectionRequest 5 "2024-01-01T00:00:00.000Z" "missing-id"
    (fields "https://example.com/get" "GET" VUndefined (VStr "probe")) simplified_store
  = (simplified_store, JsonError 404 "Collection not found").
Proof.
  refine (proj1 (simplified_add_request_not_found 5 "2024-01-01T00:00:00.000Z" "missing-id"
                   (fields "https://example.com/get" "GET" VUndefined (VStr "probe"))
                   simplified_store _)).
  intros c [<- | [<- | []]]; discriminate.
Defined.

(** ** Adding a request in the simplified variant *)






(** ** The mock login *)

Lemma split_first_spec (sep : ascii) (s : string) :
  (Auth.split_first sep s = s
   \/ exists rest, s = Auth.split_first sep s ++ String sep rest)
  /\ Forall (fun c => c <> sep) (list_ascii_of_string (Auth.split_first sep s))
  /\ (Forall (fun c => c <> sep) (list_ascii_of_string s) -> Auth.split_first sep s = s).
Proof.
  induction s as [| c s (IHcut & IHfree & IHall)]; cbn [Auth.split_first].
  - repeat split; [now left | constructor].
  - destruct (Ascii.eqb_spec c sep) as [-> | Hne].
    + repeat split.
      * right. now exists s.
      * constructor.
      * cbn [list_ascii_of_string]. intros Hall. inversion Hall; subst. congruence.
    + repeat split.
      * destruct IHcut as [Hsame | [rest Hrest]].
        -- left. now rewrite Hsame.
        -- right. exists rest. cbn [append]. now rewrite <- Hrest.
      * cbn [list_ascii_of_string]. now constructor.
      * cbn [list_ascii_of_string]. intros Hall. inversion Hall; subst.
        now rewrite IHall.
Qed.

(** X20. With a non-empty string as email and a truthy password, the mock
    login answers 200 with a user whose id is mock_user_ followed by the
    clock reading, whose email is the one given, and whose name is the email
    up to its first at sign: the whole email when it holds none. *)
Theorem login_mock_user (now : Z) (b : Auth.Credentials) (s : string) :
  Auth.email b = VStr s ->
  s <> EmptyString ->
  truthy (Auth.password b) = true ->
  exists nm,
    Auth.login now b
    = Json {| Auth.user := {| Auth.mu_id := "mock_user_" ++ Number_toString now;
                              Auth.mu_email := VStr s;
                              Auth.mu_name := VStr nm |};
              Auth.message := "Mock login successful (no actual authentication)" |}
    /\ (nm = s \/ exists rest, s = nm ++ String "@" rest)
    /\ Forall (fun c => c <> "@"%char) (list_ascii_of_string nm)
    /\ (Forall (fun c => c <> "@"%char) (list_ascii_of_string s) -> nm = s).
Proof.
  intros Hemail Hne Hpassword.
  exists (Auth.split_first "@"%char s). split.
  - unfold Auth.login. rewrite Hemail, Hpassword.
    assert (Ht : truthy (VStr s) = true).
    { destruct (truthy (VStr s)) eqn:Ht; [reflexivity |].
      now apply truthy_string in Ht. }
    rewrite Ht. reflexivity.
  - apply split_first_spec.
Qed.

Lemma login_mock_user_witness :
  exists nm,
    Auth.login 42 {| Auth.email := VStr "ada@example.com";
                     Auth.password := VStr "secret";
                     Auth.name := VUndefined |}
    = Json {| Auth.user := {| Auth.mu_id := "mock_user_" ++ Number_toString 42;
                              Auth.mu_email := VStr "ada@example.com";
                              Auth.mu_name := VStr nm |};
              Auth.message := "Mock login successful (no actual authentication)" |}
    /\ (nm = "ada@example.com" \/ exists rest, "ada@example.com" = nm ++ String "@" rest).
Proof.
  destruct (login_mock_user 42 {| Auth.email := VStr "ada@example.com";
                                  Auth.password := VStr "secret";
                                  Auth.name := VUndefined |} "ada@example.com"
              eq_refl) as [nm (Hlogin & Hcut & _)]; [discriminate | reflexivity |].
  exists nm. split; [exact Hlogin | exact Hcut].
Defined.

Lemma local_part_throws (v : value) :
  (exists m, Auth.local_part v = Thrown m) <-> forall s, v <> VStr s.
Proof.
  destruct v; cbn [Auth.local_part];
    try (split; [intros _ s0; discriminate | intros _; eexists; reflexivity]).
  split; [intros [m Hm]; discriminate | intros Hns; now contradiction (Hns s)].
Qed.

(** X21. Registration and login answer 400 exactly when the email or the
    password is falsy; beyond that registration always answers 200, while
    login answers 500 exactly when the email is a truthy value that is not a
    string. *)
Theorem auth_requires_credentials (now : Z) (b : Auth.Credentials) :
  (http_status (Auth.register now b) = 400%Z
   <-> truthy (Auth.email b) = false \/ truthy (Auth.password b) = false)
  /\ (http_status (Auth.register now b) = 200%Z
      <-> truthy (Auth.email b) = true /\ truthy (Auth.password b) = true)
  /\ (http_status (Auth.login now b) = 400%Z
      <-> truthy (Auth.email b) = false \/ truthy (Auth.password b) = false)
  /\ (http_status (Auth.login now b) = 500%Z
      <-> truthy (Auth.email b) = true /\ truthy (Auth.password b) = true
          /\ forall s, Auth.email b <> VStr s).
Proof.
  pose proof (local_part_throws (Auth.email b)) as Hthrows.
  unfold Auth.register, Auth.login.
  destruct (truthy (Auth.email b)) eqn:He, (truthy (Auth.password b)) eqn:Hp;
    cbn [negb orb http_status].
  - split; [split; [discriminate | intros [? | ?]; discriminate] |].
    split; [split; [now auto | reflexivity] |].
    destruct (Auth.local_part (Auth.email b)) as [nm | m]; cbn [http_status].
    + split; [split; [discriminate | intros [? | ?]; discriminate] |].
      split; [discriminate |]. intros (_ & _ & Hns).
      apply Hthrows in Hns as [m Hm]. discriminate.
    + split; [split; [discriminate | intros [? | ?]; discriminate] |].
      split; [intros _ | reflexivity]. repeat split. apply Hthrows. now exists m.
  - split; [split; [now auto | reflexivity] |].
    split; [split; [discriminate | intros [_ ?]; discriminate] |].
    split; [split; [now auto | reflexivity] |].
    split; [discriminate | intros (_ & ? & _); discriminate].
  - split; [split; [now auto | reflexivity] |].
    split; [split; [discriminate | intros [? _]; discriminate] |].
    split; [split; [now auto | reflexivity] |].
    split; [discriminate | intros (? & _); discriminate].
  - split; [split; [now auto | reflexivity] |].
    split; [split; [discriminate | intros [? _]; discriminate] |].
    split; [split; [now auto | reflexivity] |].
    split; [discriminate | intros (? & _); discriminate].
Qed.
